(** * nzcp: the barcode, CWT payload and pass decoders, embedded in Rocq

    Sources: src/nzcp/src/payload/barcode.rs, payload/cwt.rs, pass.rs,
    pass/public_covid_pass.rs, error.rs.

    Conventions.
    - A Rust [&str] / [String] is its UTF-8 byte sequence, written as a
      [String.string]: every [Ascii.ascii] is one byte (0..255).
    - A [u8] / [i64] is a [Z]; a [Vec<u8>] is a [list Z] of values in 0..255.
    - [Result<T, E>] is [result T E]; code that can panic returns [exec A],
      whose [Panicked] case records the panic message. *)

From Stdlib Require Import ZArith List String Ascii Bool Lia.
Import ListNotations.
Open Scope string_scope.
Open Scope list_scope.
Open Scope Z_scope.
Set Warnings "-register-all".

Inductive result (T E : Type) : Type :=
| Ok (v : T)
| Err (e : E).
Arguments Ok {T E} v.
Arguments Err {T E} e.

Inductive exec (A : Type) : Type :=
| Returned (a : A)
| Panicked (msg : string).
Arguments Returned {A} a.
Arguments Panicked {A} msg.

(** ** Rust string primitives *)

Definition byte_of (c : ascii) : Z := Z.of_nat (nat_of_ascii c).

Definition bytes_of_str (s : string) : list Z := map byte_of (list_ascii_of_string s).

(** [str::strip_prefix] with a string pattern. *)
Fixpoint strip_prefix (s p : string) {struct p} : option string :=
  match p, s with
  | EmptyString, _ => Some s
  | String c p', String d s' => if Ascii.eqb c d then strip_prefix s' p' else None
  | String _ _, EmptyString => None
  end.

(** [str::is_ascii]. *)
Definition is_ascii (s : string) : bool :=
  forallb (fun b => Z.ltb b 128) (bytes_of_str s).

(** [str::from_utf8(bytes).is_ok()]: well-formed UTF-8 (the Unicode
    table of well-formed byte sequences: no overlong forms, no surrogates,
    nothing above U+10FFFF). *)
Definition in_range (lo hi c : Z) : bool := (lo <=? c) && (c <=? hi).

Fixpoint utf8_valid (bs : list Z) : bool :=
  match bs with
  | [] => true
  | b :: r =>
      if b <? 128 then utf8_valid r
      else match r with
      | [] => false
      | c1 :: r1 =>
          if in_range 194 223 b then in_range 128 191 c1 && utf8_valid r1
          else match r1 with
          | [] => false
          | c2 :: r2 =>
              if in_range 224 239 b then
                (if b =? 224 then in_range 160 191 c1
                 else if b =? 237 then in_range 128 159 c1
                 else in_range 128 191 c1)
                && in_range 128 191 c2 && utf8_valid r2
              else match r2 with
              | [] => false
              | c3 :: r3 =>
                  if in_range 240 244 b then
                    (if b =? 240 then in_range 144 191 c1
                     else if b =? 244 then in_range 128 143 c1
                     else in_range 128 191 c1)
                    && in_range 128 191 c2 && in_range 128 191 c3 && utf8_valid r3
                  else false
              end
          end
      end
  end.

(** ** The base-32 boundary: [base32::decode(RFC4648 { padding: false }, _)]
    (crate base32 0.4, the library the barcode parser calls). *)
Module base32.

(** [RFC4648_INV_ALPHABET], indexed by [c - b'0']; [-1] marks a byte
    outside the alphabet; ['='] (index 13) maps to 0. *)
Definition RFC4648_INV_ALPHABET : list Z :=
  [-1; -1; 26; 27; 28; 29; 30; 31; -1; -1; -1; -1; -1; 0; -1; -1; -1;
   0; 1; 2; 3; 4; 5; 6; 7; 8; 9; 10; 11; 12; 13; 14; 15; 16; 17; 18;
   19; 20; 21; 22; 23; 24; 25].

(** [u8::to_ascii_uppercase]. *)
Definition to_ascii_uppercase (c : Z) : Z :=
  if Z.leb 97 c && Z.leb c 122 then c - 32 else c.

(** [alphabet.get(c.to_ascii_uppercase().wrapping_sub(b'0') as usize)],
    with [Some(&-1) | None => return None]. *)
Definition symbol_value (c : Z) : option Z :=
  let idx := (to_ascii_uppercase c - 48) mod 256 in
  match nth_error RFC4648_INV_ALPHABET (Z.to_nat idx) with
  | Some v => if Z.eqb v (-1) then None else Some v
  | None => None
  end.

(** The [for i in 1..min(6, len)+1] loop counting trailing ['='],
    run on the reversed data. *)
Fixpoint trailing_pads (rev_data : list Z) (k : nat) : nat :=
  match k, rev_data with
  | O, _ => O
  | S k', c :: r => if Z.eqb c 61 then S (trailing_pads r k') else O
  | S _, [] => O
  end.

(** [data.chunks(8)]. *)
Fixpoint chunks_aux (fuel : nat) (l : list Z) : list (list Z) :=
  match fuel with
  | O => []
  | S f => match l with
           | [] => []
           | _ => firstn 8 l :: chunks_aux f (skipn 8 l)
           end
  end.
Definition chunks8 (l : list Z) : list (list Z) := chunks_aux (List.length l) l.

(** The [buf] of one chunk: symbol values, zero-filled to 8. *)
Fixpoint chunk_buf (chunk : list Z) : option (list Z) :=
  match chunk with
  | [] => Some []
  | c :: r => match symbol_value c, chunk_buf r with
              | Some v, Some vs => Some (v :: vs)
              | _, _ => None
              end
  end.

Definition u8 (x : Z) : Z := Z.land x 255.

Definition buf_at (buf : list Z) (i : nat) : Z := nth i buf 0.

(** The five [ret.push(...)] of a chunk, with [u8] shifts wrapping. *)
Definition chunk_bytes (buf : list Z) : list Z :=
  let b := buf_at buf in
  [ u8 (Z.lor (Z.shiftl (b 0%nat) 3) (Z.shiftr (b 1%nat) 2));
    u8 (Z.lor (Z.lor (u8 (Z.shiftl (b 1%nat) 6)) (u8 (Z.shiftl (b 2%nat) 1)))
              (Z.shiftr (b 3%nat) 4));
    u8 (Z.lor (u8 (Z.shiftl (b 3%nat) 4)) (Z.shiftr (b 4%nat) 1));
    u8 (Z.lor (Z.lor (u8 (Z.shiftl (b 4%nat) 7)) (u8 (Z.shiftl (b 5%nat) 2)))
              (Z.shiftr (b 6%nat) 3));
    u8 (Z.lor (u8 (Z.shiftl (b 6%nat) 5)) (b 7%nat)) ].

Fixpoint decode_chunks (cs : list (list Z)) : option (list Z) :=
  match cs with
  | [] => Some []
  | c :: r => match chunk_buf c with
              | None => None
              | Some buf => match decode_chunks r with
                            | None => None
                            | Some rest => Some (chunk_bytes buf ++ rest)
                            end
              end
  end.

Definition decode (data : string) : option (list Z) :=
  if negb (is_ascii data) then None
  else
    let bytes := bytes_of_str data in
    let unpadded := (List.length bytes - trailing_pads (rev bytes) 6)%nat in
    let output_length := Nat.div (unpadded * 5) 8 in
    match decode_chunks (chunks8 bytes) with
    | None => None
    | Some ret => Some (firstn output_length ret)
    end.

End base32.

(** ** payload/barcode.rs *)

Inductive QrBarcodeError : Type :=
| InvalidBase32
| InvalidVersion
| MissingNzcpPrefix.

(** [pub struct QrBarcode(pub Vec<u8>)]. *)
Record QrBarcode : Type := mkQrBarcode { qr_bytes : list Z }.

(** [impl FromStr for QrBarcode]: [from_str]. *)
Definition from_str (s : string) : result QrBarcode QrBarcodeError :=
  match strip_prefix s "NZCP:/" with
  | None => Err MissingNzcpPrefix
  | Some s1 =>
      match strip_prefix s1 "1/" with
      | None => Err InvalidVersion
      | Some base32_encoded_cwt =>
          match base32.decode base32_encoded_cwt with
          | None => Err InvalidBase32
          | Some cbor_array => Ok (mkQrBarcode cbor_array)
          end
      end
  end.

(** ** The CBOR boundary: [serde_cbor::Deserializer::from_slice]

    The items serde_cbor hands to a visitor.  Integers of major types 0 and
    1 are kept as their integer value; tags (major type 6) are skipped, as
    serde_cbor does without its [tags] feature.  The model reads the whole
    first item before the visitor runs, where serde_cbor reads it while the
    visitor runs: the two agree on every well-formed item.  Indefinite
    lengths and floats are outside the modelled subset and read as a
    syntax error, as are text strings that are not valid UTF-8 (serde_cbor
    refuses them too).  serde_cbor's recursion limit (128 nested arrays
    and maps) is not modelled: the model reads items nested more deeply,
    which serde_cbor refuses. *)
Inductive cbor : Type :=
| CInt (z : Z)
| CBytes (b : list Z)
| CText (s : string)
| CArray (items : list cbor)
| CMap (entries : list (cbor * cbor))
| CBool (b : bool)
| CNull.

Module cbor_read.

Definition be_number (bs : list Z) : Z :=
  fold_left (fun acc b => acc * 256 + b) bs 0.

(** The initial byte and its argument: [(major, argument, rest)]. *)
Definition read_head (bs : list Z) : option (Z * Z * list Z) :=
  match bs with
  | [] => None
  | ib :: rest =>
      let major := Z.shiftr ib 5 in
      let ai := Z.land ib 31 in
      if ai <? 24 then Some (major, ai, rest)
      else
        let n := match ai with 24 => 1%nat | 25 => 2%nat | 26 => 4%nat
                               | 27 => 8%nat | _ => 0%nat end in
        if (n =? 0)%nat then None
        else if (List.length rest <? n)%nat then None
        else Some (major, be_number (firstn n rest), skipn n rest)
  end.

Definition take (n : Z) (bs : list Z) : option (list Z * list Z) :=
  if Z.of_nat (List.length bs) <? n then None
  else Some (firstn (Z.to_nat n) bs, skipn (Z.to_nat n) bs).

Fixpoint string_of_bytes (bs : list Z) : string :=
  match bs with
  | [] => EmptyString
  | b :: r => String (ascii_of_nat (Z.to_nat b)) (string_of_bytes r)
  end.

Fixpoint item (fuel : nat) (bs : list Z) : option (cbor * list Z) :=
  match fuel with
  | O => None
  | S f =>
      match read_head bs with
      | None => None
      | Some (major, arg, rest) =>
          match major with
          | 0 => Some (CInt arg, rest)
          | 1 => Some (CInt (-1 - arg), rest)
          | 2 => match take arg rest with
                 | Some (b, r) => Some (CBytes b, r)
                 | None => None
                 end
          | 3 => match take arg rest with
                 | Some (b, r) => if utf8_valid b then Some (CText (string_of_bytes b), r)
                                  else None
                 | None => None
                 end
          | 4 => match items f (Z.to_nat arg) rest with
                 | Some (l, r) => Some (CArray l, r)
                 | None => None
                 end
          | 5 => match entries f (Z.to_nat arg) rest with
                 | Some (l, r) => Some (CMap l, r)
                 | None => None
                 end
          | 6 => item f rest
          (* major type 7, by its initial byte: [0xf4] and [0xf5] are the
             booleans, [0xf6] (null) and [0xf7] (undefined) are both
             visited as unit; other simple values and floats are refused *)
          | _ => match bs with
                 | 244 :: r => Some (CBool false, r)
                 | 245 :: r => Some (CBool true, r)
                 | 246 :: r => Some (CNull, r)
                 | 247 :: r => Some (CNull, r)
                 | _ => None
                 end
          end
      end
  end
with items (fuel n : nat) (bs : list Z) : option (list cbor * list Z) :=
  match n with
  | O => Some ([], bs)
  | S n' => match fuel with
            | O => None
            | S f => match item f bs with
                     | None => None
                     | Some (x, r) => match items f n' r with
                                      | Some (xs, r') => Some (x :: xs, r')
                                      | None => None
                                      end
                     end
            end
  end
with entries (fuel n : nat) (bs : list Z) : option (list (cbor * cbor) * list Z) :=
  match n with
  | O => Some ([], bs)
  | S n' => match fuel with
            | O => None
            | S f => match item f bs with
                     | None => None
                     | Some (k, r) =>
                         match item f r with
                         | None => None
                         | Some (v, r') => match entries f n' r' with
                                           | Some (es, r'') => Some ((k, v) :: es, r'')
                                           | None => None
                                           end
                         end
                     end
            end
  end.

(** The first item of a slice.  Every item takes at least one byte and
    costs two units of fuel (one as an item, one as an element of its
    container), so twice the slice length bounds the recursion. *)
Definition first_item (bs : list Z) : option (cbor * list Z) :=
  item (S (2 * List.length bs)) bs.

End cbor_read.

(** ** serde: errors, the deserialization monad and primitive impls *)

(** [serde_cbor::Error]; every [de::Error] constructor of serde builds one
    of these messages. *)
Inductive DeError : Type :=
| Syntax
| TrailingData
| Custom (msg : string)
| InvalidType
| InvalidValue
| InvalidLength
| MissingField (field : string)
| DuplicateField (field : string).

(** A deserializer returns [Result<T, D::Error>] or panics. *)
Definition De (A : Type) : Type := exec (result A DeError).

Definition ret {A} (a : A) : De A := Returned (Ok a).
Definition fail {A} (e : DeError) : De A := Returned (Err e).

Definition bind {A B} (m : De A) (k : A -> De B) : De B :=
  match m with
  | Returned (Ok a) => k a
  | Returned (Err e) => Returned (Err e)
  | Panicked msg => Panicked msg
  end.

Notation "'let?' x ':=' m 'in' k" := (bind m (fun x => k))
  (at level 200, x name, m at level 100, k at level 200).

(** [trait Deserialize<'de>], on the item serde_cbor dispatches. *)
Class Deserialize (T : Type) := deserialize : cbor -> De T.

(** [impl Deserialize for &str]: borrowed text, or borrowed bytes read as
    UTF-8 ([visit_borrowed_bytes] refuses bytes that are not UTF-8 as an
    invalid value). *)
Definition deserialize_str (v : cbor) : De string :=
  match v with
  | CText s => ret s
  | CBytes b => if utf8_valid b then ret (cbor_read.string_of_bytes b) else fail InvalidValue
  | _ => fail InvalidType
  end.
#[global] Instance Deserialize_str : Deserialize string := deserialize_str.

Definition I64_MIN : Z := - 2 ^ 63.
Definition I64_MAX : Z := 2 ^ 63 - 1.
Definition I32_MIN : Z := - 2 ^ 31.
Definition I32_MAX : Z := 2 ^ 31 - 1.

Definition in_i64 (z : Z) : bool := (I64_MIN <=? z) && (z <=? I64_MAX).
Definition in_i32 (z : Z) : bool := (I32_MIN <=? z) && (z <=? I32_MAX).

(** [impl Deserialize for i64]: serde_cbor hands an integer in the [i64]
    range to [visit_i64] (or a narrower [visit_*]); a larger unsigned one
    goes to [visit_u64], which the [i64] visitor refuses as an invalid
    value; a negative one below [i64::MIN] goes to [visit_i128], which the
    [i64] visitor does not implement: the default method refuses it as an
    invalid type. *)
Definition deserialize_i64 (v : cbor) : De Z :=
  match v with
  | CInt z => if in_i64 z then ret z
              else if z <? I64_MIN then fail InvalidType
              else fail InvalidValue
  | _ => fail InvalidType
  end.

(** [impl Deserialize for Vec<&str>]. *)
Fixpoint deserialize_str_seq (l : list cbor) : De (list string) :=
  match l with
  | [] => ret []
  | x :: r => let? s := deserialize_str x in
              let? ss := deserialize_str_seq r in
              ret (s :: ss)
  end.

Definition deserialize_vec_str (v : cbor) : De (list string) :=
  match v with
  | CArray l => deserialize_str_seq l
  | _ => fail InvalidType
  end.

(** [impl Deserialize for (&str, &str)]: the tuple visitor takes two
    elements; serde_cbor then refuses elements left in the array. *)
Definition deserialize_str_pair (v : cbor) : De (string * string) :=
  match v with
  | CArray l =>
      match l with
      | [] => fail InvalidLength
      | a :: l1 =>
          let? x := deserialize_str a in
          match l1 with
          | [] => fail InvalidLength
          | b :: l2 =>
              let? y := deserialize_str b in
              match l2 with
              | [] => ret (x, y)
              | _ => fail TrailingData
              end
          end
      end
  | _ => fail InvalidType
  end.

(** [uuid::Uuid] (uuid 0.8): serde_cbor is not human readable, so the
    UUID is read with [deserialize_bytes] and [Uuid::from_slice]. *)
Record Uuid : Type := mkUuid { uuid_bytes : list Z }.

Definition deserialize_uuid (v : cbor) : De Uuid :=
  match v with
  | CBytes b => if (List.length b =? 16)%nat then ret (mkUuid b)
                else fail (Custom "UUID parsing failed")
  | _ => fail InvalidType
  end.

(** The field visitor of [#[derive(Deserialize)]] on a struct with the
    given serialized field names: [visit_str] and [visit_bytes] match the
    names, [visit_u64] the field indices, anything else is [__ignore];
    other keys are refused by the visitor's default methods. *)
Fixpoint index_of (names : list string) (s : string) : option nat :=
  match names with
  | [] => None
  | n :: r => if String.eqb n s then Some O
              else option_map S (index_of r s)
  end.

Definition field_of_key (names : list string) (k : cbor) : De (option nat) :=
  match k with
  | CText s => ret (index_of names s)
  | CBytes b => ret (index_of names (cbor_read.string_of_bytes b))
  | CInt z =>
      if z <? 0 then fail InvalidType
      else if z <? Z.of_nat (List.length names) then ret (Some (Z.to_nat z))
      else ret None
  | _ => fail InvalidType
  end.

(** ** chrono (0.4): the calendar types the payload decodes into *)
Module chrono.

Definition MIN_YEAR : Z := Z.shiftr I32_MIN 13.
Definition MAX_YEAR : Z := Z.shiftr I32_MAX 13.

(** [NaiveDate], kept as chrono keeps it: a year and an ordinal day. *)
Record NaiveDate : Type := mkNaiveDate { year : Z; ordinal : Z }.

(** [NaiveDateTime]: a date and [NaiveTime] (seconds from midnight and
    nanoseconds). *)
Record NaiveDateTime : Type :=
  mkNaiveDateTime { date : NaiveDate; secs_of_day : Z; frac : Z }.

Definition is_leap (y : Z) : bool :=
  (y mod 4 =? 0) && (negb (y mod 100 =? 0) || (y mod 400 =? 0)).

Definition ndays_in_year (y : Z) : Z := if is_leap y then 366 else 365.

(** [internals::YEAR_DELTAS[y]]: the leap days in years [0 .. y) of a
    400-year cycle. *)
Definition YEAR_DELTAS (y : Z) : Z :=
  (y + 3) / 4 - (y + 99) / 100 + (y + 399) / 400.

(** [internals::cycle_to_yo]. *)
Definition cycle_to_yo (cycle : Z) : Z * Z :=
  let year_mod_400 := cycle / 365 in
  let ordinal0 := cycle mod 365 in
  let delta := YEAR_DELTAS year_mod_400 in
  if ordinal0 <? delta
  then (year_mod_400 - 1, ordinal0 + 365 - YEAR_DELTAS (year_mod_400 - 1) + 1)
  else (year_mod_400, ordinal0 - delta + 1).

(** [NaiveDate::from_of]: the year range and [Of::valid]. *)
Definition from_of (y ord : Z) : option NaiveDate :=
  if (MIN_YEAR <=? y) && (y <=? MAX_YEAR) && (1 <=? ord) && (ord <=? ndays_in_year y)
  then Some (mkNaiveDate y ord) else None.

(** [NaiveDate::from_num_days_from_ce_opt]; the [days + 365] that can leave
    the [i32] range only does so for years far beyond [MAX_YEAR]. *)
Definition from_num_days_from_ce_opt (days : Z) : option NaiveDate :=
  let days := days + 365 in
  if negb (in_i32 days) then None
  else
    let year_div_400 := days / 146097 in
    let cycle := days mod 146097 in
    let (year_mod_400, ord) := cycle_to_yo cycle in
    from_of (year_div_400 * 400 + year_mod_400) ord.

(** [NaiveDateTime::from_timestamp_opt(secs, nsecs)]. *)
Definition from_timestamp_opt (secs nsecs : Z) : option NaiveDateTime :=
  let days := secs / 86400 in
  let sod := secs mod 86400 in
  if negb (in_i32 days) then None
  else if negb (in_i32 (days + 719163)) then None
  else
    match from_num_days_from_ce_opt (days + 719163) with
    | None => None
    | Some d =>
        (* [NaiveTime::from_num_seconds_from_midnight_opt] *)
        if (sod <? 86400) && (0 <=? nsecs) && (nsecs <? 2000000000)
        then Some (mkNaiveDateTime d sod nsecs) else None
    end.

(** [NaiveDateTime::from_timestamp]: [from_timestamp_opt(..).expect(..)]. *)
Definition from_timestamp (secs nsecs : Z) : exec NaiveDateTime :=
  match from_timestamp_opt secs nsecs with
  | Some t => Returned t
  | None => Panicked "invalid or out-of-range datetime"
  end.

(** Days before the first of each month in a common year. *)
Definition cumul_days (m : Z) : Z :=
  match m with
  | 1 => 0 | 2 => 31 | 3 => 59 | 4 => 90 | 5 => 120 | 6 => 151
  | 7 => 181 | 8 => 212 | 9 => 243 | 10 => 273 | 11 => 304 | _ => 334
  end.

Definition days_in_month (y m : Z) : Z :=
  match m with
  | 2 => if is_leap y then 29 else 28
  | 4 | 6 | 9 | 11 => 30
  | _ => 31
  end.

(** [NaiveDate::from_ymd_opt] ([Mdf::new], [Mdf::to_of], [from_of]). *)
Definition from_ymd_opt (y m d : Z) : option NaiveDate :=
  if (1 <=? m) && (m <=? 12) && (1 <=? d) && (d <=? days_in_month y m)
  then from_of y (cumul_days m + d + (if is_leap y && (2 <? m) then 1 else 0))
  else None.

Definition from_ymd (y m d : Z) : NaiveDate :=
  match from_ymd_opt y m d with Some x => x | None => mkNaiveDate 0 0 end.

End chrono.

(** ** chrono (0.4): [NaiveDate::parse_from_str(s, "%Y-%m-%d")]

    [StrftimeItems::new("%Y-%m-%d")] yields [Numeric(Year)], [Literal("-")],
    [Numeric(Month)], [Literal("-")], [Numeric(Day)]; [format::parse] runs
    them over the UTF-8 bytes and [Parsed::to_naive_date] builds the date.
    Only success matters to the caller ([map_err(|_| ..)]), so a parse
    error is [None]. *)
Module chrono_parse.

(** The UTF-8 encodings of the Unicode [White_Space] characters
    [str::trim_left] removes. *)
Definition WHITE_SPACE : list (list Z) :=
  [[9]; [10]; [11]; [12]; [13]; [32]; [194; 133]; [194; 160]; [225; 154; 128];
   [226; 128; 128]; [226; 128; 129]; [226; 128; 130]; [226; 128; 131];
   [226; 128; 132]; [226; 128; 133]; [226; 128; 134]; [226; 128; 135];
   [226; 128; 136]; [226; 128; 137]; [226; 128; 138]; [226; 128; 168];
   [226; 128; 169]; [226; 128; 175]; [226; 129; 159]; [227; 128; 128]].

Fixpoint bytes_prefix (p s : list Z) : bool :=
  match p, s with
  | [], _ => true
  | x :: p', y :: s' => (x =? y) && bytes_prefix p' s'
  | _ :: _, [] => false
  end.

Definition leading_white_space (s : list Z) : nat :=
  match find (fun w => bytes_prefix w s) WHITE_SPACE with
  | Some w => List.length w
  | None => O
  end.

(** [str::trim_left]. *)
Fixpoint trim_left_aux (fuel : nat) (s : list Z) : list Z :=
  match fuel with
  | O => s
  | S f => match leading_white_space s with
           | O => s
           | n => trim_left_aux f (skipn n s)
           end
  end.
Definition trim_left (s : list Z) : list Z := trim_left_aux (List.length s) s.

Definition is_digit (c : Z) : bool := (48 <=? c) && (c <=? 57).

(** [scan::number(s, min, max)]; [max = None] is [usize::MAX]. *)
Fixpoint number_loop (s : list Z) (i min : nat) (max : option nat) (n : Z)
  : option (list Z * Z) :=
  match max with
  | Some O => Some (s, n)
  | _ =>
    match s with
    | [] => Some ([], n)
    | c :: s' =>
        if negb (is_digit c) then
          if (i <? min)%nat then None else Some (s, n)
        else
          let n' := n * 10 + (c - 48) in
          if negb (in_i64 n') then None
          else number_loop s' (S i) min (option_map pred max) n'
    end
  end.

Definition number (s : list Z) (min : nat) (max : option nat) : option (list Z * Z) :=
  if (List.length s <? min)%nat then None else number_loop s O min max 0.

(** [Item::Numeric(spec, _)] with its [(width, signed)]. *)
Definition numeric (s : list Z) (width : nat) (signed : bool) : option (list Z * Z) :=
  let s := trim_left s in
  if signed then
    match s with
    | 45 :: s' => match number s' 1 None with
                  | Some (r, v) => Some (r, 0 - v)
                  | None => None
                  end
    | 43 :: s' => number s' 1 None
    | _ => number s 1 (Some width)
    end
  else number s 1 (Some width).

(** [Item::Literal(prefix)]. *)
Definition literal (prefix s : list Z) : option (list Z) :=
  if (List.length s <? List.length prefix)%nat then None
  else if bytes_prefix prefix s then Some (skipn (List.length prefix) s)
  else None.

(** [NaiveDate::parse_from_str(s, "%Y-%m-%d")]. *)
Definition parse_from_str_ymd (str : string) : option chrono.NaiveDate :=
  let s := bytes_of_str str in
  match numeric s 4 true with
  | None => None
  | Some (s, y) =>
  (* [Parsed::set_year]: the value must fit [i32] *)
  if negb (in_i32 y) then None else
  match literal [45] s with
  | None => None
  | Some s =>
  match numeric s 2 false with
  | None => None
  | Some (s, m) =>
  match literal [45] s with
  | None => None
  | Some s =>
  match numeric s 2 false with
  | None => None
  | Some (s, d) =>
  match s with
  | _ :: _ => None
  | [] => chrono.from_ymd_opt y m d
  end end end end end end.

End chrono_parse.

(** ** pass.rs *)

(** [pub trait Pass { const CREDENTIAL_TYPE: &'static str; }]. *)
Class Pass (T : Type) := CREDENTIAL_TYPE : string.

(** The generic [T: Deserialize<'a>] of a struct field: its deserializer,
    and what [serde::__private::de::missing_field] gives when the field is
    absent ([None] for an [Option], the error for any other type). *)
Class DeserializeField (T : Type) := {
  deserialize_field : cbor -> De T;
  deserialize_missing : string -> De T
}.

(** ** payload/cwt.rs *)

(** [enum DecentralizedIdentifier<'a> { Web(&'a str) }]. *)
Inductive DecentralizedIdentifier : Type :=
| Web (identifier : string).

(** [DecentralizedIdentifierVisitor::visit_borrowed_str]. *)
Definition visit_borrowed_str (s : string) : result DecentralizedIdentifier DeError :=
  match strip_prefix s "did:web:" with
  | Some identifier => Ok (Web identifier)
  | None => Err (Custom "invalid DID")
  end.

(** [deserializer.deserialize_str(DecentralizedIdentifierVisitor)]: any
    other item reaches a default visitor method, which refuses it. *)
Definition deserialize_did (v : cbor) : De DecentralizedIdentifier :=
  match v with
  | CText s => Returned (visit_borrowed_str s)
  | _ => fail InvalidType
  end.

(** [deserialize_numeric_date]. *)
Definition deserialize_numeric_date (v : cbor) : De chrono.NaiveDateTime :=
  let? epoch_seconds := deserialize_i64 v in
  match chrono.from_timestamp epoch_seconds 0 with
  | Returned t => ret t
  | Panicked msg => Panicked msg
  end.

(** [struct VerifiableCredential<'a, T>]. *)
Record VerifiableCredential (T : Type) : Type := mkVerifiableCredential {
  context : list string;
  _type : string * string;
  version : string;
  credential_subject : T
}.
Arguments mkVerifiableCredential {T}.
Arguments context {T}.
Arguments _type {T}.
Arguments version {T}.
Arguments credential_subject {T}.

Definition VC_FIELDS : list string := ["@context"; "type"; "version"; "credentialSubject"].

Section VerifiableCredentialDe.
Context {T : Type} `{DeserializeField T}.

(** The [__field0 .. __field3] locals of the derived [visit_map]. *)
Record vc_slots : Type := mk_vc_slots {
  f_context : option (list string);
  f_type : option (string * string);
  f_version : option string;
  f_subject : option T
}.

(** The [while let Some(key) = map.next_key()?] loop of the derived
    [visit_map]: a repeated field is a [duplicate_field] error, an unknown
    one is skipped as [IgnoredAny]. *)
Fixpoint vc_visit_entries (es : list (cbor * cbor)) (st : vc_slots) : De vc_slots :=
  match es with
  | [] => ret st
  | (k, v) :: r =>
      let? f := field_of_key VC_FIELDS k in
      match f with
      | Some 0%nat =>
          match f_context st with
          | Some _ => fail (DuplicateField "@context")
          | None => let? x := deserialize_vec_str v in
                    vc_visit_entries r (mk_vc_slots (Some x) (f_type st) (f_version st) (f_subject st))
          end
      | Some 1%nat =>
          match f_type st with
          | Some _ => fail (DuplicateField "type")
          | None => let? x := deserialize_str_pair v in
                    vc_visit_entries r (mk_vc_slots (f_context st) (Some x) (f_version st) (f_subject st))
          end
      | Some 2%nat =>
          match f_version st with
          | Some _ => fail (DuplicateField "version")
          | None => let? x := deserialize_str v in
                    vc_visit_entries r (mk_vc_slots (f_context st) (f_type st) (Some x) (f_subject st))
          end
      | Some 3%nat =>
          match f_subject st with
          | Some _ => fail (DuplicateField "credentialSubject")
          | None => let? x := deserialize_field v in
                    vc_visit_entries r (mk_vc_slots (f_context st) (f_type st) (f_version st) (Some x))
          end
      | _ => vc_visit_entries r st
      end
  end.

(** The derived [visit_map]: after the loop, absent fields in declaration
    order. *)
Definition vc_visit_map (es : list (cbor * cbor)) : De (VerifiableCredential T) :=
  let? st := vc_visit_entries es (mk_vc_slots None None None None) in
  let? c := match f_context st with Some x => ret x | None => fail (MissingField "@context") end in
  let? t := match f_type st with Some x => ret x | None => fail (MissingField "type") end in
  let? ver := match f_version st with Some x => ret x | None => fail (MissingField "version") end in
  let? s := match f_subject st with Some x => ret x | None => deserialize_missing "credentialSubject" end in
  ret (mkVerifiableCredential c t ver s).

(** The derived [visit_seq]: the fields in order, [invalid_length] when
    the array is short; serde_cbor refuses elements left over. *)
Definition vc_visit_seq (l : list cbor) : De (VerifiableCredential T) :=
  match l with
  | [] => fail InvalidLength
  | a :: l =>
  let? c := deserialize_vec_str a in
  match l with
  | [] => fail InvalidLength
  | b :: l =>
  let? t := deserialize_str_pair b in
  match l with
  | [] => fail InvalidLength
  | d :: l =>
  let? ver := deserialize_str d in
  match l with
  | [] => fail InvalidLength
  | e :: l =>
  let? s := deserialize_field e in
  match l with
  | [] => ret (mkVerifiableCredential c t ver s)
  | _ => fail TrailingData
  end end end end end.

(** [impl Deserialize for VerifiableCredential<'a, T>] (derived). *)
Definition deserialize_vc (v : cbor) : De (VerifiableCredential T) :=
  match v with
  | CMap es => vc_visit_map es
  | CArray l => vc_visit_seq l
  | _ => fail InvalidType
  end.

End VerifiableCredentialDe.

(** [struct CwtPayload<'a, T>]. *)
Record CwtPayload (T : Type) : Type := mkCwtPayload {
  cwt_token_id : Uuid;
  issuer : DecentralizedIdentifier;
  not_before : chrono.NaiveDateTime;
  expiry : chrono.NaiveDateTime;
  verifiable_credential : VerifiableCredential T
}.
Arguments mkCwtPayload {T}.
Arguments cwt_token_id {T}.
Arguments issuer {T}.
Arguments not_before {T}.
Arguments expiry {T}.
Arguments verifiable_credential {T}.

Definition CWT_FIELDS : list string := ["cti"; "iss"; "nbf"; "exp"; "vc"].

Section CwtPayloadDe.
Context {T : Type} `{DeserializeField T}.

Record cwt_slots : Type := mk_cwt_slots {
  f_cti : option Uuid;
  f_iss : option DecentralizedIdentifier;
  f_nbf : option chrono.NaiveDateTime;
  f_exp : option chrono.NaiveDateTime;
  f_vc : option (VerifiableCredential T)
}.

(** The key loop of the derived [visit_map] of [CwtPayload]. *)
Fixpoint cwt_visit_entries (es : list (cbor * cbor)) (st : cwt_slots) : De cwt_slots :=
  match es with
  | [] => ret st
  | (k, v) :: r =>
      let? f := field_of_key CWT_FIELDS k in
      match f with
      | Some 0%nat =>
          match f_cti st with
          | Some _ => fail (DuplicateField "cti")
          | None => let? x := deserialize_uuid v in
                    cwt_visit_entries r (mk_cwt_slots (Some x) (f_iss st) (f_nbf st) (f_exp st) (f_vc st))
          end
      | Some 1%nat =>
          match f_iss st with
          | Some _ => fail (DuplicateField "iss")
          | None => let? x := deserialize_did v in
                    cwt_visit_entries r (mk_cwt_slots (f_cti st) (Some x) (f_nbf st) (f_exp st) (f_vc st))
          end
      | Some 2%nat =>
          match f_nbf st with
          | Some _ => fail (DuplicateField "nbf")
          | None => let? x := deserialize_numeric_date v in
                    cwt_visit_entries r (mk_cwt_slots (f_cti st) (f_iss st) (Some x) (f_exp st) (f_vc st))
          end
      | Some 3%nat =>
          match f_exp st with
          | Some _ => fail (DuplicateField "exp")
          | None => let? x := deserialize_numeric_date v in
                    cwt_visit_entries r (mk_cwt_slots (f_cti st) (f_iss st) (f_nbf st) (Some x) (f_vc st))
          end
      | Some 4%nat =>
          match f_vc st with
          | Some _ => fail (DuplicateField "vc")
          | None => let? x := deserialize_vc v in
                    cwt_visit_entries r (mk_cwt_slots (f_cti st) (f_iss st) (f_nbf st) (f_exp st) (Some x))
          end
      | _ => cwt_visit_entries r st
      end
  end.

Definition required {A} (name : string) (o : option A) : De A :=
  match o with Some x => ret x | None => fail (MissingField name) end.

Definition cwt_visit_map (es : list (cbor * cbor)) : De (CwtPayload T) :=
  let? st := cwt_visit_entries es (mk_cwt_slots None None None None None) in
  let? cti := required "cti" (f_cti st) in
  let? iss := required "iss" (f_iss st) in
  let? nbf := required "nbf" (f_nbf st) in
  let? exp := required "exp" (f_exp st) in
  let? vc := required "vc" (f_vc st) in
  ret (mkCwtPayload cti iss nbf exp vc).

Definition cwt_visit_seq (l : list cbor) : De (CwtPayload T) :=
  match l with
  | [] => fail InvalidLength
  | a :: l =>
  let? cti := deserialize_uuid a in
  match l with
  | [] => fail InvalidLength
  | b :: l =>
  let? iss := deserialize_did b in
  match l with
  | [] => fail InvalidLength
  | c :: l =>
  let? nbf := deserialize_numeric_date c in
  match l with
  | [] => fail InvalidLength
  | d :: l =>
  let? exp := deserialize_numeric_date d in
  match l with
  | [] => fail InvalidLength
  | e :: l =>
  let? vc := deserialize_vc e in
  match l with
  | [] => ret (mkCwtPayload cti iss nbf exp vc)
  | _ => fail TrailingData
  end end end end end end.

(** [impl Deserialize for CwtPayload<'a, T>] (derived). *)
Definition deserialize_cwt (v : cbor) : De (CwtPayload T) :=
  match v with
  | CMap es => cwt_visit_map es
  | CArray l => cwt_visit_seq l
  | _ => fail InvalidType
  end.

(** [CwtPayload::deserialize(&mut serde_cbor::Deserializer::from_slice(..))]. *)
Definition deserialize_cwt_slice (bytes : list Z) : De (CwtPayload T) :=
  match cbor_read.first_item bytes with
  | None => fail Syntax
  | Some (v, _) => deserialize_cwt v
  end.

(** [CwtPayload::from_barcode]: [Ok(CwtPayload::deserialize(..).unwrap())]. *)
Definition from_barcode (barcode : QrBarcode) : exec (result (CwtPayload T) unit) :=
  match deserialize_cwt_slice (qr_bytes barcode) with
  | Returned (Ok p) => Returned (Ok p)
  | Returned (Err _) => Panicked "called `Result::unwrap()` on an `Err` value"
  | Panicked msg => Panicked msg
  end.

End CwtPayloadDe.

(** ** error.rs *)

(** [enum NzcpError]. *)
Inductive NzcpError : Type :=
| NzcpQrBarcode (e : QrBarcodeError).

(** ** pass/public_covid_pass.rs *)

(** [enum PublicCovidPassError]. *)
Inductive PublicCovidPassError : Type :=
| InvalidDateOfBirth.

(** Its [Display] ([#[error(..)]]). *)
Definition display_pcp_error (e : PublicCovidPassError) : string :=
  match e with
  | InvalidDateOfBirth => "The given date of birth was invalid."
  end.

(** [struct PublicCovidPass<'a>]. *)
Record PublicCovidPass : Type := mkPublicCovidPass {
  given_name : string;
  family_name : string;
  date_of_birth : chrono.NaiveDate
}.

(** [impl Pass for PublicCovidPass]. *)
#[global] Instance Pass_PublicCovidPass : Pass PublicCovidPass := "PublicCovidPass".

(** [deserialize_iso_8601_date]. *)
Definition deserialize_iso_8601_date (v : cbor) : De chrono.NaiveDate :=
  let? string := deserialize_str v in
  match chrono_parse.parse_from_str_ymd string with
  | Some d => ret d
  | None => fail (Custom (display_pcp_error InvalidDateOfBirth))
  end.

Definition PCP_FIELDS : list string := ["givenName"; "familyName"; "dob"].

Record pcp_slots : Type := mk_pcp_slots {
  f_given_name : option string;
  f_family_name : option string;
  f_dob : option chrono.NaiveDate
}.

(** The key loop of the derived [visit_map] of [PublicCovidPass]. *)
Fixpoint pcp_visit_entries (es : list (cbor * cbor)) (st : pcp_slots) : De pcp_slots :=
  match es with
  | [] => ret st
  | (k, v) :: r =>
      let? f := field_of_key PCP_FIELDS k in
      match f with
      | Some 0%nat =>
          match f_given_name st with
          | Some _ => fail (DuplicateField "givenName")
          | None => let? x := deserialize_str v in
                    pcp_visit_entries r (mk_pcp_slots (Some x) (f_family_name st) (f_dob st))
          end
      | Some 1%nat =>
          match f_family_name st with
          | Some _ => fail (DuplicateField "familyName")
          | None => let? x := deserialize_str v in
                    pcp_visit_entries r (mk_pcp_slots (f_given_name st) (Some x) (f_dob st))
          end
      | Some 2%nat =>
          match f_dob st with
          | Some _ => fail (DuplicateField "dob")
          | None => let? x := deserialize_iso_8601_date v in
                    pcp_visit_entries r (mk_pcp_slots (f_given_name st) (f_family_name st) (Some x))
          end
      | _ => pcp_visit_entries r st
      end
  end.

Definition pcp_visit_map (es : list (cbor * cbor)) : De PublicCovidPass :=
  let? st := pcp_visit_entries es (mk_pcp_slots None None None) in
  let? g := required "givenName" (f_given_name st) in
  let? f := required "familyName" (f_family_name st) in
  let? d := required "dob" (f_dob st) in
  ret (mkPublicCovidPass g f d).

Definition pcp_visit_seq (l : list cbor) : De PublicCovidPass :=
  match l with
  | [] => fail InvalidLength
  | a :: l =>
  let? g := deserialize_str a in
  match l with
  | [] => fail InvalidLength
  | b :: l =>
  let? f := deserialize_str b in
  match l with
  | [] => fail InvalidLength
  | c :: l =>
  let? d := deserialize_iso_8601_date c in
  match l with
  | [] => ret (mkPublicCovidPass g f d)
  | _ => fail TrailingData
  end end end end.

(** [impl Deserialize for PublicCovidPass] (derived). *)
Definition deserialize_pcp (v : cbor) : De PublicCovidPass :=
  match v with
  | CMap es => pcp_visit_map es
  | CArray l => pcp_visit_seq l
  | _ => fail InvalidType
  end.

#[global] Instance DeserializeField_PublicCovidPass : DeserializeField PublicCovidPass := {
  deserialize_field := deserialize_pcp;
  deserialize_missing := fun name => fail (MissingField name)
}.

(** ** Test fixtures: CBOR encoding of concrete records *)
Module fixtures.

Fixpoint be_bytes (n : nat) (x : Z) : list Z :=
  match n with
  | O => []
  | S n' => be_bytes n' (Z.shiftr x 8) ++ [Z.land x 255]
  end.

(** The shortest head for a major type and argument. *)
Definition head (major arg : Z) : list Z :=
  if arg <? 24 then [major * 32 + arg]
  else if arg <? 2 ^ 8 then (major * 32 + 24) :: be_bytes 1 arg
  else if arg <? 2 ^ 16 then (major * 32 + 25) :: be_bytes 2 arg
  else if arg <? 2 ^ 32 then (major * 32 + 26) :: be_bytes 4 arg
  else (major * 32 + 27) :: be_bytes 8 arg.

Fixpoint encode (v : cbor) : list Z :=
  match v with
  | CInt z => if 0 <=? z then head 0 z else head 1 (-1 - z)
  | CBytes b => head 2 (Z.of_nat (List.length b)) ++ b
  | CText s => head 3 (Z.of_nat (String.length s)) ++ bytes_of_str s
  | CArray l => head 4 (Z.of_nat (List.length l)) ++ List.concat (map encode l)
  | CMap es => head 5 (Z.of_nat (List.length es))
                 ++ List.concat (map (fun kv => encode (fst kv) ++ encode (snd kv)) es)
  | CBool b => [if b then 245 else 244]
  | CNull => [246]
  end.

Definition subject (dob : string) : cbor :=
  CMap [(CText "givenName", CText "John Andrew");
        (CText "familyName", CText "Doe");
        (CText "dob", CText dob)].

Definition vc (ctx : list string) (pass_type : string) (subj : cbor) : cbor :=
  CMap [(CText "@context", CArray (map CText ctx));
        (CText "version", CText "1.0.0");
        (CText "type", CArray [CText "VerifiableCredential"; CText pass_type]);
        (CText "credentialSubject", subj)].

Definition CONTEXT : list string :=
  ["https://www.w3.org/2018/credentials/v1";
   "https://nzcp.covid19.health.nz/contexts/v1"].

Definition CTI : list Z :=
  [204; 89; 157; 4; 13; 81; 79; 126; 142; 245; 215; 181; 248; 70; 28; 95].

(** The record of the spec's concrete scenario, with the issuer entry
    optional, the [nbf] value, the context and the pass type as
    parameters. *)
Definition record (with_iss : bool) (nbf : Z) (ctx : list string) (pass_type : string) : cbor :=
  CMap ((if with_iss then [(CText "iss", CText "did:web:example.nz")] else [])
        ++ [(CText "nbf", CInt nbf);
            (CText "exp", CInt 1516239922);
            (CText "cti", CBytes CTI);
            (CText "vc", vc ctx pass_type (subject "1979-04-14"))]).

Definition barcode (v : cbor) : QrBarcode := mkQrBarcode (encode v).

End fixtures.

(** An envelope map with the given [@context] item, type tag, version and
    subject item. *)
Definition vc_map (ctxv : cbor) (a b ver : string) (sv : cbor) : cbor :=
  CMap [(CText "@context", ctxv);
        (CText "type", CArray [CText a; CText b]);
        (CText "version", CText ver);
        (CText "credentialSubject", sv)].

(** ** Predicates on base-32 bodies *)

(** The RFC 4648 base-32 alphabet, as bytes: [A-Z] and [2-7]. *)
Definition is_rfc4648_symbol (c : Z) : bool :=
  ((65 <=? c) && (c <=? 90)) || ((50 <=? c) && (c <=? 55)).

(** The bytes [base32::decode] accepts: the alphabet, lower-case letters
    and ['=']. *)
Definition base32_accepted (c : Z) : bool :=
  is_rfc4648_symbol c || ((97 <=? c) && (c <=? 122)) || (c =? 61).

(** [str::to_ascii_uppercase]: [u8::to_ascii_uppercase] on every byte. *)
Definition str_to_ascii_uppercase (s : string) : string :=
  cbor_read.string_of_bytes (map base32.to_ascii_uppercase (bytes_of_str s)).

(** The text [YYYY-MM-DD] of the given decimal digits. *)
Definition ymd_text (y3 y2 y1 y0 m1 m0 d1 d0 : Z) : string :=
  cbor_read.string_of_bytes
    [48 + y3; 48 + y2; 48 + y1; 48 + y0; 45; 48 + m1; 48 + m0; 45; 48 + d1; 48 + d0].

(** [cycle_to_yo] on one day of the 400-year cycle lands in a year of the
    cycle and on an ordinal of that year. *)
Definition cycle_ok (cycle : Z) : bool :=
  let (year_mod_400, ord) := chrono.cycle_to_yo cycle in
  (0 <=? year_mod_400) && (year_mod_400 <=? 399) &&
  (1 <=? ord) && (ord <=? chrono.ndays_in_year year_mod_400).

Fixpoint check_cycles (n : nat) (cycle : Z) : bool :=
  match n with
  | O => true
  | S n' => cycle_ok cycle && check_cycles n' (cycle + 1)
  end.

(** * Lemmas on the embedding *)

Lemma strip_prefix_app (p r : string) : strip_prefix (p ++ r)%string p = Some r.
Proof.
  induction p as [|c p IH]; simpl; [reflexivity|].
  rewrite Ascii.eqb_refl. exact IH.
Qed.

Lemma strip_prefix_some (s p r : string) :
  strip_prefix s p = Some r <-> s = (p ++ r)%string.
Proof.
  revert s. induction p as [|c p IH]; intros s.
  - simpl. split; intros H; [now inversion H | now subst].
  - destruct s as [|d s]; simpl.
    + split; intros H; discriminate.
    + destruct (Ascii.eqb_spec c d) as [->|Hne].
      * rewrite IH. split; intros H; [now subst | now inversion H].
      * split; intros H; [discriminate | inversion H; congruence].
Qed.

Lemma strip_prefix_none (s p : string) :
  strip_prefix s p = None <-> ~ exists r, s = (p ++ r)%string.
Proof.
  split.
  - intros H [r Hr]. apply strip_prefix_some in Hr. congruence.
  - intros H. destruct (strip_prefix s p) as [r|] eqn:E; [|reflexivity].
    exfalso. apply H. exists r. now apply strip_prefix_some.
Qed.

Lemma bytes_of_str_range (s : string) (x : Z) :
  In x (bytes_of_str s) -> 0 <= x < 256.
Proof.
  unfold bytes_of_str. intros Hx. apply in_map_iff in Hx as [a [<- _]].
  unfold byte_of. pose proof (nat_ascii_bounded a). lia.
Qed.

Lemma is_ascii_false (s : string) :
  is_ascii s = false <-> exists x, In x (bytes_of_str s) /\ 128 <= x.
Proof.
  unfold is_ascii. split.
  - intros H. apply Bool.not_true_iff_false in H.
    destruct (existsb (fun b => 128 <=? b) (bytes_of_str s)) eqn:E.
    + apply existsb_exists in E as [x [Hin Hx]]. exists x. split; [exact Hin | lia].
    + exfalso. apply H. apply forallb_forall. intros x Hin.
      apply Z.ltb_lt. destruct (Z.lt_ge_cases x 128) as [Hl|Hge]; [exact Hl|].
      assert (existsb (fun b => 128 <=? b) (bytes_of_str s) = true) as Ht
        by (apply existsb_exists; exists x; split; [exact Hin | lia]).
      congruence.
  - intros [x [Hin Hx]]. apply Bool.not_true_iff_false. intros Hall.
    rewrite forallb_forall in Hall. specialize (Hall x Hin). lia.
Qed.

(** The inverse table, checked on every ASCII byte. *)
Lemma symbol_value_ascii (c : Z) :
  0 <= c < 128 -> (base32.symbol_value c = None <-> base32_accepted c = false).
Proof.
  intros Hc.
  assert (Hall : forallb (fun n => let c := Z.of_nat n in
            Bool.eqb (match base32.symbol_value c with None => true | Some _ => false end)
                     (negb (base32_accepted c))) (seq 0 128) = true) by (vm_compute; reflexivity).
  rewrite forallb_forall in Hall.
  assert (Hin : In (Z.to_nat c) (seq 0 128)) by (apply in_seq; lia).
  specialize (Hall _ Hin). simpl in Hall. rewrite Z2Nat.id in Hall by lia.
  destruct (base32.symbol_value c), (base32_accepted c); simpl in Hall;
    split; intros; congruence.
Qed.

Lemma rfc4648_symbol_accepted (c : Z) :
  is_rfc4648_symbol c = true -> base32_accepted c = true /\ c < 128.
Proof.
  unfold base32_accepted, is_rfc4648_symbol. intros H. rewrite H. split; [reflexivity|].
  apply Bool.orb_true_iff in H as [H|H]; apply andb_true_iff in H as [H1 H2]; lia.
Qed.

Lemma accepted_lt_128 (c : Z) : base32_accepted c = true -> c < 128.
Proof.
  unfold base32_accepted, is_rfc4648_symbol. intros H.
  repeat (apply Bool.orb_true_iff in H as [H|H]);
    try apply andb_true_iff in H as [H1 H2]; lia.
Qed.

Lemma chunk_buf_none (c : list Z) :
  base32.chunk_buf c = None <-> exists x, In x c /\ base32.symbol_value x = None.
Proof.
  induction c as [|y c IH]; simpl.
  - split; [discriminate | intros [x [[] _]]].
  - destruct (base32.symbol_value y) eqn:Ey.
    + destruct (base32.chunk_buf c) eqn:Ec.
      * split; [discriminate|]. intros [x [[<-|Hin] Hx]]; [congruence|].
        assert (None = Some l) as Hc by (symmetry; apply IH; eauto). discriminate.
      * split; [intros _|reflexivity].
        destruct (proj1 IH eq_refl) as [x [Hin Hx]]. eauto.
    + split; [intros _; exists y; auto | reflexivity].
Qed.

Lemma decode_chunks_aux_none (fuel : nat) (l : list Z) :
  (List.length l <= fuel)%nat ->
  base32.decode_chunks (base32.chunks_aux fuel l) = None
  <-> exists x, In x l /\ base32.symbol_value x = None.
Proof.
  revert l. induction fuel as [|f IH]; intros l Hlen.
  - destruct l; [|simpl in Hlen; lia]. simpl.
    split; [discriminate | intros [x [[] _]]].
  - destruct l as [|y l'].
    + simpl. split; [discriminate | intros [x [[] _]]].
    + cbn [base32.chunks_aux base32.decode_chunks].
      set (l := y :: l') in *.
      assert (Hsk : (List.length (skipn 8 l) <= f)%nat)
        by (rewrite length_skipn; subst l; simpl in *; lia).
      assert (Hsplit : forall x, In x l <-> In x (firstn 8 l) \/ In x (skipn 8 l))
        by (intros x; rewrite <- in_app_iff, firstn_skipn; reflexivity).
      destruct (base32.chunk_buf (firstn 8 l)) eqn:Eb.
      * destruct (base32.decode_chunks (base32.chunks_aux f (skipn 8 l))) eqn:Er.
        -- split; [discriminate|]. intros [x [Hin Hx]].
           apply Hsplit in Hin as [Hin|Hin].
           ++ assert (base32.chunk_buf (firstn 8 l) = None) by (apply chunk_buf_none; eauto).
              congruence.
           ++ assert (base32.decode_chunks (base32.chunks_aux f (skipn 8 l)) = None)
                by (apply (IH _ Hsk); eauto).
              congruence.
        -- split; [intros _|reflexivity].
           destruct (proj1 (IH _ Hsk) Er) as [x [Hin Hx]].
           exists x. split; [apply Hsplit; auto | exact Hx].
      * split; [intros _|reflexivity].
        destruct (proj1 (chunk_buf_none _) Eb) as [x [Hin Hx]].
        exists x. split; [apply Hsplit; auto | exact Hx].
Qed.

Lemma base32_decode_none (body : string) :
  base32.decode body = None
  <-> exists x, In x (bytes_of_str body) /\ base32_accepted x = false.
Proof.
  unfold base32.decode.
  destruct (is_ascii body) eqn:Ea; simpl.
  - unfold base32.chunks8.
    assert (Hd := decode_chunks_aux_none (List.length (bytes_of_str body)) (bytes_of_str body)
                   (le_n _)).
    destruct (base32.decode_chunks _) eqn:Ec.
    + split; [discriminate|]. intros [x [Hin Hx]].
      assert (x < 128).
      { destruct (Z.lt_ge_cases x 128) as [Hl|Hge]; [exact Hl|].
        assert (is_ascii body = false) by (apply is_ascii_false; eauto). congruence. }
      pose proof (bytes_of_str_range _ _ Hin).
      assert (None = Some l) by (symmetry; apply Hd; exists x; split;
                                   [exact Hin | apply symbol_value_ascii; [lia | exact Hx]]).
      discriminate.
    + split; [intros _|reflexivity].
      destruct (proj1 Hd eq_refl) as [x [Hin Hx]].
      exists x. split; [exact Hin|].
      pose proof (bytes_of_str_range _ _ Hin).
      destruct (Z.lt_ge_cases x 128) as [Hl|Hge].
      * apply symbol_value_ascii; [lia | exact Hx].
      * destruct (base32_accepted x) eqn:Eacc; [|reflexivity].
        apply accepted_lt_128 in Eacc. lia.
  - split; [intros _|reflexivity].
    destruct (proj1 (is_ascii_false body) Ea) as [x [Hin Hx]].
    exists x. split; [exact Hin|].
    destruct (base32_accepted x) eqn:Eacc; [|reflexivity].
    apply accepted_lt_128 in Eacc. lia.
Qed.

Lemma from_str_v1 (body : string) :
  from_str ("NZCP:/1/" ++ body)%string =
  match base32.decode body with
  | None => Err InvalidBase32
  | Some cbor_array => Ok (mkQrBarcode cbor_array)
  end.
Proof.
  unfold from_str.
  change ("NZCP:/1/" ++ body)%string with ("NZCP:/" ++ ("1/" ++ body))%string.
  rewrite (strip_prefix_app "NZCP:/" ("1/" ++ body)).
  rewrite (strip_prefix_app "1/" body). reflexivity.
Qed.

(** * Claims: the barcode scheme parser and the base-32 boundary *)

(** C5: for every body made of RFC 4648 base-32 symbols ([A-Z], [2-7]),
    [from_str] on ["NZCP:/1/" ++ body] succeeds, and its bytes are exactly
    what [base32::decode] makes of the unmodified body. *)
Theorem from_str_decodes_valid_body (body : string)
  (Hvalid : forallb is_rfc4648_symbol (bytes_of_str body) = true) :
  exists bytes, base32.decode body = Some bytes /\
                from_str ("NZCP:/1/" ++ body)%string = Ok (mkQrBarcode bytes).
Proof.
  rewrite from_str_v1.
  destruct (base32.decode body) as [bytes|] eqn:E; [eauto|].
  exfalso. apply base32_decode_none in E as [x [Hin Hx]].
  rewrite forallb_forall in Hvalid.
  destruct (rfc4648_symbol_accepted x (Hvalid x Hin)) as [Hacc _]. congruence.
Qed.

Lemma from_str_decodes_valid_body_witness :
  forallb is_rfc4648_symbol (bytes_of_str "MZXW6YTBOI") = true /\
  exists bytes, base32.decode "MZXW6YTBOI" = Some bytes /\
                from_str ("NZCP:/1/" ++ "MZXW6YTBOI")%string = Ok (mkQrBarcode bytes).
Proof.
  split; [vm_compute; reflexivity|].
  apply (from_str_decodes_valid_body "MZXW6YTBOI"). vm_compute. reflexivity.
Defined.

(** C7: after the ["NZCP:/"] prefix, any text that does not start with the
    version segment ["1/"] makes [from_str] fail with [InvalidVersion]. *)
Theorem from_str_rejects_other_versions (rest : string)
  (Hver : ~ exists body, rest = ("1/" ++ body)%string) :
  from_str ("NZCP:/" ++ rest)%string = Err InvalidVersion.
Proof.
  unfold from_str. rewrite strip_prefix_app.
  apply strip_prefix_none in Hver. rewrite Hver. reflexivity.
Qed.

Lemma from_str_rejects_other_versions_witness :
  (~ exists body, "2/MZXW6YTBOI" = ("1/" ++ body)%string) /\
  from_str ("NZCP:/" ++ "2/MZXW6YTBOI")%string = Err InvalidVersion.
Proof.
  assert (H : ~ exists body, "2/MZXW6YTBOI" = ("1/" ++ body)%string).
  { intros [b Hb]. apply strip_prefix_some in Hb. vm_compute in Hb. discriminate. }
  split; [exact H | apply (from_str_rejects_other_versions "2/MZXW6YTBOI" H)].
Defined.

(** C8 (counterexample): bodies outside the strict unpadded alphabet or
    grouping are decoded, not rejected: a one-symbol body (no complete
    byte), lower-case letters and a ['='] inside the body. *)
Lemma from_str_accepts_lenient_bodies :
  from_str "NZCP:/1/A" = Ok (mkQrBarcode []) /\
  from_str "NZCP:/1/mzxw6ytboi" = Ok (mkQrBarcode [102; 111; 111; 98; 97; 114]) /\
  from_str "NZCP:/1/M=XW6YTBOI" = Ok (mkQrBarcode [96; 47; 111; 98; 97; 114]).
Proof. vm_compute. repeat split. Qed.

(** C8 (amended): [from_str] on ["NZCP:/1/" ++ body] fails, with the single
    [InvalidBase32] value, exactly when the body has a byte that
    [base32::decode] refuses: a non-ASCII byte or one that is none of
    [A-Z], [a-z], [2-7], ['=']; the body's length is not checked. *)
Theorem from_str_invalid_base32_iff (body : string) :
  from_str ("NZCP:/1/" ++ body)%string = Err InvalidBase32 <->
  exists c, In c (bytes_of_str body) /\ base32_accepted c = false.
Proof.
  rewrite from_str_v1, <- base32_decode_none.
  destruct (base32.decode body); split; intros H; congruence.
Qed.

(** C10: ["NZCP:/1/"] with an empty body parses to the empty byte sequence. *)
Theorem from_str_empty_body : from_str "NZCP:/1/" = Ok (mkQrBarcode []).
Proof. reflexivity. Qed.

(** * Claims: the decentralized identifier *)

(** C6: a string decodes as a [DecentralizedIdentifier] exactly when it
    starts with ["did:web:"]; the result is then [Web] of the remainder
    (possibly empty), and any other string is the ["invalid DID"] error. *)
Theorem did_web_decoding (s : string) :
  (forall r, deserialize_did (CText s) = ret (Web r) <-> s = ("did:web:" ++ r)%string) /\
  (deserialize_did (CText s) = fail (Custom "invalid DID")
   <-> ~ exists r, s = ("did:web:" ++ r)%string).
Proof.
  unfold deserialize_did, visit_borrowed_str, ret, fail. split.
  - intros r. rewrite <- strip_prefix_some.
    destruct (strip_prefix s "did:web:"); split; intros H; inversion H; reflexivity.
  - rewrite <- strip_prefix_none.
    destruct (strip_prefix s "did:web:"); split; intros H; congruence.
Qed.

(** * Claims: the CWT payload, the credential envelope and the subject *)

Lemma deserialize_str_seq_text (ctx : list string) :
  deserialize_str_seq (map CText ctx) = ret ctx.
Proof.
  induction ctx as [|c ctx IH]; [reflexivity|].
  simpl. rewrite IH. reflexivity.
Qed.

Lemma deserialize_vc_map {T : Type} `{DeserializeField T}
  (ctx : list string) (a b ver : string) (sv : cbor) (s : T)
  (Hsub : deserialize_field sv = ret s) :
  deserialize_vc (vc_map (CArray (map CText ctx)) a b ver sv)
  = ret (mkVerifiableCredential ctx (a, b) ver s).
Proof.
  unfold deserialize_vc, vc_map, vc_visit_map. simpl.
  rewrite deserialize_str_seq_text. simpl. rewrite Hsub. reflexivity.
Qed.

(** C1 (the defect): whatever error the derived deserializer reports for
    the barcode's bytes, [from_barcode] does not return it: [unwrap]
    panics. *)
Theorem from_barcode_panics_on_decode_error {T : Type} `{DeserializeField T}
  (barcode : QrBarcode) (e : DeError)
  (Herr : deserialize_cwt_slice (T := T) (qr_bytes barcode) = fail e) :
  from_barcode (T := T) barcode = Panicked "called `Result::unwrap()` on an `Err` value".
Proof. unfold from_barcode. rewrite Herr. reflexivity. Qed.

Lemma from_barcode_panics_on_decode_error_witness :
  deserialize_cwt_slice (T := PublicCovidPass)
    (qr_bytes (fixtures.barcode (fixtures.record false 1516239022 fixtures.CONTEXT "PublicCovidPass")))
  = fail (MissingField "iss") /\
  from_barcode (T := PublicCovidPass)
    (fixtures.barcode (fixtures.record false 1516239022 fixtures.CONTEXT "PublicCovidPass"))
  = Panicked "called `Result::unwrap()` on an `Err` value".
Proof.
  assert (H : deserialize_cwt_slice (T := PublicCovidPass)
    (qr_bytes (fixtures.barcode (fixtures.record false 1516239022 fixtures.CONTEXT "PublicCovidPass")))
    = fail (MissingField "iss")) by (vm_compute; reflexivity).
  split; [exact H | exact (from_barcode_panics_on_decode_error _ _ H)].
Defined.

(** C2 (counterexample): a record whose type tag is
    [("VerifiableCredential", "SomeOtherPass")] decodes as a
    [CwtPayload<PublicCovidPass>], keeping the mismatching tag. *)
Lemma from_barcode_accepts_other_pass_type :
  exists p,
    from_barcode (T := PublicCovidPass)
      (fixtures.barcode (fixtures.record true 1516239022 fixtures.CONTEXT "SomeOtherPass"))
    = Returned (Ok p) /\
    _type (verifiable_credential p) = ("VerifiableCredential", "SomeOtherPass") /\
    snd (_type (verifiable_credential p)) <> CREDENTIAL_TYPE (T := PublicCovidPass).
Proof.
  eexists. split; [vm_compute; reflexivity|].
  split; [reflexivity | simpl; discriminate].
Qed.

(** C2 (amended): the envelope decoder never compares [type[1]] with the
    requested subject's [CREDENTIAL_TYPE]: a tag naming another pass type
    decodes, as it is, whenever the subject decodes. *)
Theorem vc_type_tag_not_checked {T : Type} `{DeserializeField T} `{Pass T}
  (ctx : list string) (a b ver : string) (sv : cbor) (s : T)
  (Hmismatch : b <> CREDENTIAL_TYPE (T := T))
  (Hsub : deserialize_field sv = ret s) :
  deserialize_vc (vc_map (CArray (map CText ctx)) a b ver sv)
  = ret (mkVerifiableCredential ctx (a, b) ver s).
Proof. apply deserialize_vc_map. exact Hsub. Qed.

Lemma vc_type_tag_not_checked_witness :
  "SomeOtherPass" <> CREDENTIAL_TYPE (T := PublicCovidPass) /\
  deserialize_vc (vc_map (CArray (map CText fixtures.CONTEXT))
                    "VerifiableCredential" "SomeOtherPass" "1.0.0"
                    (fixtures.subject "1979-04-14"))
  = ret (mkVerifiableCredential fixtures.CONTEXT ("VerifiableCredential", "SomeOtherPass") "1.0.0"
           (mkPublicCovidPass "John Andrew" "Doe" (chrono.from_ymd 1979 4 14))).
Proof.
  assert (Hm : "SomeOtherPass" <> CREDENTIAL_TYPE (T := PublicCovidPass))
    by (simpl; discriminate).
  split; [exact Hm|].
  apply (vc_type_tag_not_checked _ _ _ _ _ _ Hm). vm_compute. reflexivity.
Defined.

(** C3 (the defect): an [i64] epoch value outside chrono's calendar range
    does not give an error result: [NaiveDateTime::from_timestamp] panics
    inside [deserialize_numeric_date]. *)
Theorem numeric_date_panics_out_of_range (z : Z)
  (Hz : in_i64 z = true)
  (Hout : chrono.from_timestamp_opt z 0 = None) :
  deserialize_numeric_date (CInt z) = Panicked "invalid or out-of-range datetime".
Proof.
  unfold deserialize_numeric_date, deserialize_i64, chrono.from_timestamp.
  rewrite Hz. simpl. rewrite Hout. reflexivity.
Qed.

Lemma numeric_date_panics_out_of_range_witness :
  in_i64 I64_MAX = true /\ chrono.from_timestamp_opt I64_MAX 0 = None /\
  deserialize_numeric_date (CInt I64_MAX) = Panicked "invalid or out-of-range datetime".
Proof.
  assert (H1 : in_i64 I64_MAX = true) by (vm_compute; reflexivity).
  assert (H2 : chrono.from_timestamp_opt I64_MAX 0 = None) by (vm_compute; reflexivity).
  split; [exact H1 | split; [exact H2 | exact (numeric_date_panics_out_of_range _ H1 H2)]].
Defined.

(** The same panic through the whole decoder: an [nbf] of [i64::MAX] (and
    one of [8_640_000_000_000], whose day count fits [i32] but whose year
    is past [MAX_YEAR]). *)
Lemma from_barcode_panics_on_far_nbf :
  from_barcode (T := PublicCovidPass)
    (fixtures.barcode (fixtures.record true I64_MAX fixtures.CONTEXT "PublicCovidPass"))
  = Panicked "invalid or out-of-range datetime" /\
  from_barcode (T := PublicCovidPass)
    (fixtures.barcode (fixtures.record true 8640000000000 fixtures.CONTEXT "PublicCovidPass"))
  = Panicked "invalid or out-of-range datetime".
Proof. split; vm_compute; reflexivity. Qed.

(** C4 (counterexample): an envelope whose [@context] is the empty array
    decodes, with an empty context. *)
Lemma from_barcode_accepts_empty_context :
  exists p,
    from_barcode (T := PublicCovidPass)
      (fixtures.barcode (fixtures.record true 1516239022 [] "PublicCovidPass"))
    = Returned (Ok p) /\ context (verifiable_credential p) = [].
Proof. eexists. split; [vm_compute; reflexivity | reflexivity]. Qed.

(** C4 (amended): [@context] must be an array of strings, and any such
    array, the empty one included, is accepted as it is: an envelope whose
    [@context] is an array of texts decodes with exactly those texts as its
    context, while a [@context] that is not an array is an [InvalidType]
    error. *)
Theorem vc_context_accepts_any_array {T : Type} `{DeserializeField T}
  (a b ver : string) (sv : cbor) (s : T)
  (Hsub : deserialize_field sv = ret s) :
  (forall ctx : list string,
   deserialize_vc (vc_map (CArray (map CText ctx)) a b ver sv)
   = ret (mkVerifiableCredential ctx (a, b) ver s)) /\
  (forall ctxv, (forall l, ctxv <> CArray l) ->
   deserialize_vc (T := T) (vc_map ctxv a b ver sv) = fail InvalidType).
Proof.
  split.
  - intros ctx. apply (deserialize_vc_map ctx a b ver sv s Hsub).
  - intros ctxv Hna. unfold deserialize_vc, vc_map, vc_visit_map. simpl.
    destruct ctxv; try reflexivity. exfalso. eapply Hna. reflexivity.
Qed.

Lemma vc_context_accepts_any_array_witness :
  deserialize_field (fixtures.subject "1979-04-14")
    = ret (mkPublicCovidPass "John Andrew" "Doe" (chrono.from_ymd 1979 4 14)) /\
  deserialize_vc (vc_map (CArray (map CText [])) "VerifiableCredential" "PublicCovidPass" "1.0.0"
                    (fixtures.subject "1979-04-14"))
  = ret (mkVerifiableCredential [] ("VerifiableCredential", "PublicCovidPass") "1.0.0"
           (mkPublicCovidPass "John Andrew" "Doe" (chrono.from_ymd 1979 4 14))).
Proof.
  assert (Hs : deserialize_field (fixtures.subject "1979-04-14")
    = ret (mkPublicCovidPass "John Andrew" "Doe" (chrono.from_ymd 1979 4 14)))
    by (vm_compute; reflexivity).
  split; [exact Hs | exact (proj1 (vc_context_accepts_any_array _ _ _ _ _ Hs) [])].
Defined.

(** C9 (counterexample): [dob] strings that are not [YYYY-MM-DD] are
    accepted by chrono's ["%Y-%m-%d"]: a one-digit month, an explicit
    sign on the year. *)
Lemma pcp_accepts_lenient_dob :
  deserialize_pcp (fixtures.subject "1979-4-14")
    = ret (mkPublicCovidPass "John Andrew" "Doe" (chrono.from_ymd 1979 4 14)) /\
  deserialize_pcp (fixtures.subject "+1979-04-14")
    = ret (mkPublicCovidPass "John Andrew" "Doe" (chrono.from_ymd 1979 4 14)).
Proof. split; vm_compute; reflexivity. Qed.

(** C9 (amended): a [dob] that chrono's ["%Y-%m-%d"] parser rejects
    (impossible calendar dates among them) makes the subject decoder fail
    with the distinct ["The given date of birth was invalid."] error. *)
Theorem pcp_invalid_dob_diagnosis (g f dob : string)
  (Hdob : chrono_parse.parse_from_str_ymd dob = None) :
  deserialize_pcp (CMap [(CText "givenName", CText g);
                         (CText "familyName", CText f);
                         (CText "dob", CText dob)])
  = fail (Custom (display_pcp_error InvalidDateOfBirth)).
Proof.
  unfold deserialize_pcp, pcp_visit_map. simpl.
  unfold deserialize_iso_8601_date. simpl. rewrite Hdob. reflexivity.
Qed.

Lemma pcp_invalid_dob_diagnosis_witness :
  chrono_parse.parse_from_str_ymd "1979-02-30" = None /\
  deserialize_pcp (fixtures.subject "1979-02-30")
  = fail (Custom "The given date of birth was invalid.").
Proof.
  assert (H : chrono_parse.parse_from_str_ymd "1979-02-30" = None) by (vm_compute; reflexivity).
  split; [exact H | exact (pcp_invalid_dob_diagnosis "John Andrew" "Doe" _ H)].
Defined.

(** * Further properties of the barcode parser and the base-32 boundary *)

Lemma bytes_of_string_of_bytes (l : list Z) :
  Forall (fun x => 0 <= x < 256) l -> bytes_of_str (cbor_read.string_of_bytes l) = l.
Proof.
  induction 1 as [|x l Hx _ IH]; [reflexivity|].
  unfold bytes_of_str in *. simpl. rewrite IH. f_equal.
  unfold byte_of. rewrite nat_ascii_embedding by lia. lia.
Qed.

Lemma bytes_of_str_Forall (s : string) : Forall (fun x => 0 <= x < 256) (bytes_of_str s).
Proof. apply Forall_forall. intros x. apply bytes_of_str_range. Qed.

Lemma decode_chunks_length (fuel : nat) (l : list Z) (out : list Z) :
  (List.length l <= fuel)%nat ->
  base32.decode_chunks (base32.chunks_aux fuel l) = Some out ->
  (List.length l <= 8 * (List.length out / 5) /\ List.length out mod 5 = 0)%nat.
Proof.
  revert l out. induction fuel as [|f IH]; intros l out Hlen H.
  - destruct l; [|simpl in Hlen; lia]. simpl in H. inversion H. simpl. lia.
  - destruct l as [|y l'].
    + simpl in H. inversion H. simpl. lia.
    + cbn [base32.chunks_aux base32.decode_chunks] in H.
      set (l := y :: l') in *.
      destruct (base32.chunk_buf (firstn 8 l)); [|discriminate].
      destruct (base32.decode_chunks (base32.chunks_aux f (skipn 8 l))) as [rest|] eqn:E;
        [|discriminate].
      injection H as Hout.
      assert (Hl : List.length out = (5 + List.length rest)%nat)
        by (rewrite <- Hout; reflexivity).
      rewrite Hl. clear Hl Hout.
      assert (Hsk : (List.length (skipn 8 l) <= f)%nat)
        by (rewrite length_skipn; subst l; simpl in *; lia).
      destruct (IH _ _ Hsk E) as [H1 H2].
      rewrite length_skipn in H1.
      apply Nat.Div0.mod_divides in H2 as [k Hk]. rewrite Hk in *.
      replace (5 + 5 * k)%nat with (5 * (S k))%nat by lia.
      rewrite !(Nat.mul_comm 5), Nat.div_mul, Nat.Div0.mod_mul by lia.
      rewrite (Nat.mul_comm 5 k), Nat.div_mul in H1 by lia. lia.
Qed.

Lemma trailing_pads_no_pad (l : list Z) (k : nat) :
  Forall (fun x => x <> 61) l -> base32.trailing_pads l k = O.
Proof.
  intros H. destruct k, l as [|x l]; simpl; try reflexivity.
  inversion H; subst. rewrite (proj2 (Z.eqb_neq x 61)) by assumption. reflexivity.
Qed.

Lemma bytes_of_str_length (s : string) : List.length (bytes_of_str s) = String.length s.
Proof.
  unfold bytes_of_str. rewrite length_map.
  induction s as [|c s IH]; simpl; congruence.
Qed.

Lemma upper_lt_128 (c : Z) : (base32.to_ascii_uppercase c <? 128) = (c <? 128).
Proof.
  unfold base32.to_ascii_uppercase.
  destruct (Z.leb_spec 97 c), (Z.leb_spec c 122); simpl;
    try reflexivity; destruct (Z.ltb_spec (c - 32) 128), (Z.ltb_spec c 128); lia.
Qed.

Lemma upper_eqb_61 (c : Z) : (base32.to_ascii_uppercase c =? 61) = (c =? 61).
Proof.
  unfold base32.to_ascii_uppercase.
  destruct (Z.leb_spec 97 c), (Z.leb_spec c 122); simpl;
    try reflexivity; destruct (Z.eqb_spec (c - 32) 61), (Z.eqb_spec c 61); lia.
Qed.

Lemma upper_idem (c : Z) :
  base32.to_ascii_uppercase (base32.to_ascii_uppercase c) = base32.to_ascii_uppercase c.
Proof.
  unfold base32.to_ascii_uppercase.
  destruct (Z.leb_spec 97 c), (Z.leb_spec c 122); simpl;
    destruct (Z.leb_spec 97 (c - 32)), (Z.leb_spec (c - 32) 122);
    destruct (Z.leb_spec 97 c), (Z.leb_spec c 122); simpl; lia.
Qed.

Lemma upper_range (c : Z) : 0 <= c < 256 -> 0 <= base32.to_ascii_uppercase c < 256.
Proof.
  unfold base32.to_ascii_uppercase.
  destruct (Z.leb_spec 97 c), (Z.leb_spec c 122); simpl; lia.
Qed.

Lemma symbol_value_upper (c : Z) :
  base32.symbol_value (base32.to_ascii_uppercase c) = base32.symbol_value c.
Proof. unfold base32.symbol_value. rewrite upper_idem. reflexivity. Qed.

Lemma bytes_of_str_upper (s : string) :
  bytes_of_str (str_to_ascii_uppercase s) = map base32.to_ascii_uppercase (bytes_of_str s).
Proof.
  unfold str_to_ascii_uppercase. apply bytes_of_string_of_bytes.
  apply Forall_map. eapply Forall_impl; [|apply bytes_of_str_Forall].
  intros c Hc. now apply upper_range.
Qed.

Lemma trailing_pads_upper (l : list Z) (k : nat) :
  base32.trailing_pads (map base32.to_ascii_uppercase l) k = base32.trailing_pads l k.
Proof.
  revert l. induction k as [|k IH]; intros [|c l]; simpl; try reflexivity.
  rewrite upper_eqb_61, IH. reflexivity.
Qed.

Lemma chunks_aux_map (f : Z -> Z) (fuel : nat) (l : list Z) :
  base32.chunks_aux fuel (map f l) = map (map f) (base32.chunks_aux fuel l).
Proof.
  revert l. induction fuel as [|n IH]; intros l; [reflexivity|].
  destruct l as [|c l]; [reflexivity|].
  change (map f (c :: l)) with (f c :: map f l).
  cbn [base32.chunks_aux map].
  rewrite <- IH, <- firstn_map, <- skipn_map. reflexivity.
Qed.

Lemma chunk_buf_upper (c : list Z) :
  base32.chunk_buf (map base32.to_ascii_uppercase c) = base32.chunk_buf c.
Proof.
  induction c as [|x c IH]; simpl; [reflexivity|].
  rewrite symbol_value_upper, IH. reflexivity.
Qed.

Lemma decode_chunks_upper (cs : list (list Z)) :
  base32.decode_chunks (map (map base32.to_ascii_uppercase) cs) = base32.decode_chunks cs.
Proof.
  induction cs as [|c cs IH]; cbn [map base32.decode_chunks]; [reflexivity|].
  rewrite chunk_buf_upper, IH. reflexivity.
Qed.

Lemma decode_upper (body : string) :
  base32.decode (str_to_ascii_uppercase body) = base32.decode body.
Proof.
  unfold base32.decode, is_ascii, base32.chunks8.
  rewrite bytes_of_str_upper.
  replace (forallb (fun b => b <? 128) (map base32.to_ascii_uppercase (bytes_of_str body)))
    with (forallb (fun b => b <? 128) (bytes_of_str body))
    by (induction (bytes_of_str body) as [|c l IH]; simpl; [reflexivity|];
        rewrite upper_lt_128, IH; reflexivity).
  rewrite length_map, <- map_rev, trailing_pads_upper, chunks_aux_map, decode_chunks_upper.
  reflexivity.
Qed.

(** X1: [from_str] fails with [MissingNzcpPrefix] exactly when the text
    does not start with the case-sensitive scheme prefix ["NZCP:/"]. *)
Theorem from_str_missing_prefix_iff (s : string) :
  from_str s = Err MissingNzcpPrefix <-> ~ exists r, s = ("NZCP:/" ++ r)%string.
Proof.
  rewrite <- strip_prefix_none. unfold from_str.
  destruct (strip_prefix s "NZCP:/") as [s1|]; [|split; reflexivity].
  split; [|discriminate].
  destruct (strip_prefix s1 "1/"); [|discriminate].
  destruct (base32.decode _); discriminate.
Qed.

(** X2: [from_str] succeeds exactly on ["NZCP:/1/" ++ body] where
    [base32::decode] accepts [body], and the barcode holds the decoded
    bytes. *)
Theorem from_str_ok_iff (s : string) (b : QrBarcode) :
  from_str s = Ok b <->
  exists body, s = ("NZCP:/1/" ++ body)%string /\ base32.decode body = Some (qr_bytes b).
Proof.
  split.
  - unfold from_str.
    destruct (strip_prefix s "NZCP:/") as [s1|] eqn:E1; [|discriminate].
    destruct (strip_prefix s1 "1/") as [body|] eqn:E2; [|discriminate].
    destruct (base32.decode body) as [bytes|] eqn:E3; [|discriminate].
    intros H. injection H as <-. exists body. split; [|exact E3].
    apply strip_prefix_some in E1. apply strip_prefix_some in E2. subst. reflexivity.
  - intros [body [-> Hd]]. rewrite from_str_v1, Hd. destruct b. reflexivity.
Qed.

(** X4: for a body with no ['='] byte, a successful [from_str] yields
    exactly [len * 5 / 8] bytes, [len] the body's length in bytes: a
    trailing group of fewer than 8 symbols contributes only its whole
    bytes. *)
Theorem from_str_length (body : string) (b : QrBarcode)
  (Hnopad : Forall (fun x => x <> 61) (bytes_of_str body))
  (Hok : from_str ("NZCP:/1/" ++ body)%string = Ok b) :
  List.length (qr_bytes b) = (String.length body * 5 / 8)%nat.
Proof.
  rewrite from_str_v1 in Hok.
  destruct (base32.decode body) as [bytes|] eqn:Ed; [|discriminate].
  injection Hok as <-. cbn [qr_bytes]. revert Ed. unfold base32.decode.
  destruct (negb (is_ascii body)); [discriminate|].
  rewrite trailing_pads_no_pad by (apply Forall_rev; exact Hnopad).
  unfold base32.chunks8.
  destruct (base32.decode_chunks _) as [out|] eqn:Ec; [|discriminate].
  intros H. injection H as <-.
  destruct (decode_chunks_length _ _ _ (le_n _) Ec) as [H1 H2].
  rewrite bytes_of_str_length in *. rewrite length_firstn, Nat.sub_0_r.
  apply Nat.min_l.
  apply Nat.Div0.mod_divides in H2 as [k Hk]. rewrite Hk in *.
  rewrite (Nat.mul_comm 5 k), Nat.div_mul in H1 by lia.
  apply Nat.Div0.div_le_upper_bound. lia.
Qed.

Lemma from_str_length_witness :
  Forall (fun x => x <> 61) (bytes_of_str "MZXW6YTBO") /\
  from_str ("NZCP:/1/" ++ "MZXW6YTBO")%string = Ok (mkQrBarcode [102; 111; 111; 98; 97]) /\
  List.length [102; 111; 111; 98; 97] = (String.length "MZXW6YTBO" * 5 / 8)%nat.
Proof.
  assert (H1 : Forall (fun x => x <> 61) (bytes_of_str "MZXW6YTBO"))
    by (vm_compute; repeat constructor; discriminate).
  assert (H2 : from_str ("NZCP:/1/" ++ "MZXW6YTBO")%string
               = Ok (mkQrBarcode [102; 111; 111; 98; 97])) by (vm_compute; reflexivity).
  split; [exact H1 | split; [exact H2 | exact (from_str_length _ _ H1 H2)]].
Defined.

(** X5: the base-32 body is read case-insensitively: upper-casing its
    ASCII letters does not change the result of [from_str]. *)
Theorem from_str_case_insensitive (body : string) :
  from_str ("NZCP:/1/" ++ str_to_ascii_uppercase body)%string
  = from_str ("NZCP:/1/" ++ body)%string.
Proof. rewrite !from_str_v1, decode_upper. reflexivity. Qed.

(** * Further properties of the date decoders *)

Lemma check_cycles_ok (n : nat) (c : Z) :
  check_cycles n c = true -> forall c', c <= c' < c + Z.of_nat n -> cycle_ok c' = true.
Proof.
  revert c. induction n as [|n IH]; intros c H c' Hc'; [lia|].
  simpl in H. apply andb_true_iff in H as [H0 H1].
  destruct (Z.eq_dec c' c) as [->|Hne]; [exact H0|].
  apply (IH (c + 1) H1). lia.
Qed.

Lemma cycle_to_yo_bounds (cycle : Z) :
  0 <= cycle < 146097 ->
  let (year_mod_400, ord) := chrono.cycle_to_yo cycle in
  0 <= year_mod_400 <= 399 /\ 1 <= ord <= chrono.ndays_in_year year_mod_400.
Proof.
  intros Hc.
  assert (Hall : check_cycles (Z.to_nat 146097) 0 = true) by (vm_compute; reflexivity).
  pose proof (check_cycles_ok _ _ Hall cycle ltac:(rewrite Z2Nat.id; lia)) as H.
  unfold cycle_ok in H. destruct (chrono.cycle_to_yo cycle) as [y o].
  repeat rewrite andb_true_iff in H. destruct H as [[[H1 H2] H3] H4].
  apply Z.leb_le in H1, H2, H3, H4. lia.
Qed.

Lemma is_leap_400 (q y : Z) : chrono.is_leap (q * 400 + y) = chrono.is_leap y.
Proof.
  unfold chrono.is_leap.
  replace (q * 400 + y) with (y + (q * 100) * 4) by ring.
  rewrite Z.mod_add by lia.
  replace (y + q * 100 * 4) with (y + (q * 4) * 100) by ring.
  rewrite Z.mod_add by lia.
  replace (y + q * 4 * 100) with (y + q * 400) by ring.
  rewrite Z.mod_add by lia. reflexivity.
Qed.

Lemma in_i32_true (v : Z) : I32_MIN <= v <= I32_MAX -> in_i32 v = true.
Proof.
  unfold in_i32. intros [H1 H2]. apply andb_true_iff. split; apply Z.leb_le; assumption.
Qed.

Lemma in_i64_true (v : Z) : I64_MIN <= v <= I64_MAX -> in_i64 v = true.
Proof.
  unfold in_i64. intros [H1 H2]. apply andb_true_iff. split; apply Z.leb_le; assumption.
Qed.

Lemma numeric_date_in_range (z : Z)
  (Hlo : -8330088643200 <= z) (Hhi : z <= 8205754204799) :
  exists d, deserialize_numeric_date (CInt z) = ret (chrono.mkNaiveDateTime d (z mod 86400) 0).
Proof.
  unfold deserialize_numeric_date, deserialize_i64.
  rewrite in_i64_true by (unfold I64_MIN, I64_MAX; lia). cbn [bind ret].
  unfold chrono.from_timestamp, chrono.from_timestamp_opt.
  assert (Hd : -96413063 <= z / 86400 <= 94974006)
    by (split; [apply Z.div_le_lower_bound | apply Z.lt_succ_r, Z.div_lt_upper_bound]; lia).
  rewrite !in_i32_true by (unfold I32_MIN, I32_MAX; lia). cbn [negb].
  unfold chrono.from_num_days_from_ce_opt.
  rewrite in_i32_true by (unfold I32_MIN, I32_MAX; lia). cbn [negb].
  set (days := z / 86400 + 719163 + 365).
  assert (Hq : -655 <= days / 146097 <= 654).
  { unfold days. split.
    - apply Z.div_le_lower_bound; lia.
    - apply Z.lt_succ_r. apply Z.div_lt_upper_bound; lia. }
  pose proof (Z.mod_pos_bound days 146097 ltac:(lia)) as Hc.
  pose proof (cycle_to_yo_bounds (days mod 146097) Hc) as Hyo.
  destruct (chrono.cycle_to_yo (days mod 146097)) as [ym ord].
  destruct Hyo as [Hym Hord].
  unfold chrono.from_of, chrono.ndays_in_year in *.
  rewrite is_leap_400.
  unfold chrono.MIN_YEAR, chrono.MAX_YEAR. change (Z.shiftr I32_MIN 13) with (-262144).
  change (Z.shiftr I32_MAX 13) with 262143.
  destruct (chrono.is_leap ym);
  (rewrite (proj2 (Z.leb_le (-262144) _)) by lia;
   rewrite (proj2 (Z.leb_le _ 262143)) by lia;
   rewrite (proj2 (Z.leb_le 1 ord)) by lia;
   rewrite (proj2 (Z.leb_le ord _)) by lia;
   pose proof (Z.mod_pos_bound z 86400 ltac:(lia));
   rewrite (proj2 (Z.ltb_lt (z mod 86400) 86400)) by lia;
   cbn; eexists; reflexivity).
Qed.

(** X6: [deserialize_numeric_date] does not panic on any integer from
    -8330088643200 to 8205754204799 (the timestamps whose day falls in one
    of the 400-year cycles -655 .. 654 of the proleptic Gregorian calendar,
    about 262000 years either side of 1970). It returns a date-time whose
    time of day is [z mod 86400] (floored, so never negative) and whose
    nanoseconds are 0. *)
Theorem numeric_date_no_panic_in_range (z : Z)
  (Hlo : -8330088643200 <= z) (Hhi : z <= 8205754204799) :
  exists d, deserialize_numeric_date (CInt z) = ret (chrono.mkNaiveDateTime d (z mod 86400) 0).
Proof. exact (numeric_date_in_range z Hlo Hhi). Qed.

Lemma numeric_date_no_panic_in_range_witness :
  -8330088643200 <= -1 /\ -1 <= 8205754204799 /\
  exists d, deserialize_numeric_date (CInt (-1)) = ret (chrono.mkNaiveDateTime d (-1 mod 86400) 0).
Proof.
  split; [lia | split; [lia | apply (numeric_date_no_panic_in_range (-1)); lia]].
Defined.

Lemma digit_is_digit (c : Z) : 48 <= c <= 57 -> chrono_parse.is_digit c = true.
Proof. intros H. unfold chrono_parse.is_digit. apply andb_true_iff. split; apply Z.leb_le; lia. Qed.

Lemma leading_white_space_digit (c : Z) (s : list Z) :
  48 <= c <= 57 -> chrono_parse.leading_white_space (c :: s) = O.
Proof.
  intros Hc. unfold chrono_parse.leading_white_space, chrono_parse.WHITE_SPACE.
  cbn [find chrono_parse.bytes_prefix].
  repeat match goal with
         | |- context [?a =? c] => rewrite (proj2 (Z.eqb_neq a c)) by lia
         end.
  reflexivity.
Qed.

Lemma numeric_digit (c : Z) (s : list Z) (w : nat) (signed : bool) :
  48 <= c <= 57 ->
  chrono_parse.numeric (c :: s) w signed = chrono_parse.number (c :: s) 1 (Some w).
Proof.
  intros Hc. unfold chrono_parse.numeric, chrono_parse.trim_left.
  cbn [List.length chrono_parse.trim_left_aux]. rewrite leading_white_space_digit by exact Hc.
  destruct signed; [|reflexivity].
  assert (c = 48 \/ c = 49 \/ c = 50 \/ c = 51 \/ c = 52 \/ c = 53 \/ c = 54 \/ c = 55
          \/ c = 56 \/ c = 57) as Hcs by lia.
  repeat destruct Hcs as [->|Hcs]; try reflexivity; subst; reflexivity.
Qed.

Lemma number_loop_digit (a : Z) (s : list Z) (i min k : nat) (n : Z) :
  48 <= a <= 57 -> in_i64 (n * 10 + (a - 48)) = true ->
  chrono_parse.number_loop (a :: s) i min (Some (S k)) n
  = chrono_parse.number_loop s (S i) min (Some k) (n * 10 + (a - 48)).
Proof.
  intros Ha Hn. cbn [chrono_parse.number_loop].
  rewrite digit_is_digit by exact Ha. cbn [negb]. rewrite Hn. reflexivity.
Qed.

Lemma number_loop_done (s : list Z) (i min : nat) (n : Z) :
  chrono_parse.number_loop s i min (Some O) n = Some (s, n).
Proof. destruct s; reflexivity. Qed.

Lemma parse_ymd_text (y3 y2 y1 y0 m1 m0 d1 d0 : Z) :
  Forall (fun x => 0 <= x <= 9) [y3; y2; y1; y0; m1; m0; d1; d0] ->
  chrono_parse.parse_from_str_ymd (ymd_text y3 y2 y1 y0 m1 m0 d1 d0)
  = chrono.from_ymd_opt (1000 * y3 + 100 * y2 + 10 * y1 + y0) (10 * m1 + m0) (10 * d1 + d0).
Proof.
  intros Hd. repeat rewrite Forall_cons_iff in Hd.
  destruct Hd as [H3 [H2 [H1 [H0 [Hm1 [Hm0 [Hd1 [Hd0 _]]]]]]]].
  unfold chrono_parse.parse_from_str_ymd, ymd_text.
  rewrite bytes_of_string_of_bytes by (repeat constructor; lia).
  rewrite numeric_digit by lia.
  unfold chrono_parse.number. cbn [List.length Nat.ltb Nat.leb].
  rewrite !number_loop_digit by (lia || (apply in_i64_true; unfold I64_MIN, I64_MAX; lia)).
  rewrite number_loop_done.
  rewrite in_i32_true by (unfold I32_MIN, I32_MAX; lia). cbn [negb].
  unfold chrono_parse.literal. cbn [List.length Nat.ltb Nat.leb chrono_parse.bytes_prefix skipn].
  rewrite Z.eqb_refl. cbn [andb].
  rewrite numeric_digit by lia.
  unfold chrono_parse.number. cbn [List.length Nat.ltb Nat.leb].
  rewrite !number_loop_digit by (lia || (apply in_i64_true; unfold I64_MIN, I64_MAX; lia)).
  rewrite number_loop_done.
  cbn [List.length Nat.ltb Nat.leb chrono_parse.bytes_prefix skipn].
  rewrite Z.eqb_refl. cbn [andb].
  rewrite numeric_digit by lia.
  unfold chrono_parse.number. cbn [List.length Nat.ltb Nat.leb].
  rewrite !number_loop_digit by (lia || (apply in_i64_true; unfold I64_MIN, I64_MAX; lia)).
  rewrite number_loop_done.
  f_equal; lia.
Qed.

(** X7: a [dob] text [YYYY-MM-DD] of eight decimal digits is read as the
    calendar date it spells: [deserialize_iso_8601_date] returns
    [NaiveDate::from_ymd_opt(YYYY, MM, DD)] when that date exists, and the
    [InvalidDateOfBirth] message when it does not (a month 13, a
    February 30, ...). *)
Theorem iso_8601_date_digits (y3 y2 y1 y0 m1 m0 d1 d0 : Z)
  (Hdigits : Forall (fun x => 0 <= x <= 9) [y3; y2; y1; y0; m1; m0; d1; d0]) :
  deserialize_iso_8601_date (CText (ymd_text y3 y2 y1 y0 m1 m0 d1 d0))
  = match chrono.from_ymd_opt (1000 * y3 + 100 * y2 + 10 * y1 + y0)
                              (10 * m1 + m0) (10 * d1 + d0) with
    | Some date => ret date
    | None => fail (Custom "The given date of birth was invalid.")
    end.
Proof.
  cbv [deserialize_iso_8601_date deserialize_str bind ret].
  rewrite parse_ymd_text by exact Hdigits. reflexivity.
Qed.

Lemma iso_8601_date_digits_witness :
  Forall (fun x => 0 <= x <= 9) [1; 9; 7; 9; 0; 4; 1; 4] /\
  deserialize_iso_8601_date (CText (ymd_text 1 9 7 9 0 4 1 4))
  = match chrono.from_ymd_opt (1000 * 1 + 100 * 9 + 10 * 7 + 9) (10 * 0 + 4) (10 * 1 + 4) with
    | Some date => ret date
    | None => fail (Custom "The given date of birth was invalid.")
    end.
Proof.
  assert (H : Forall (fun x => 0 <= x <= 9) [1; 9; 7; 9; 0; 4; 1; 4])
    by (repeat constructor; lia).
  split; [exact H | exact (iso_8601_date_digits 1 9 7 9 0 4 1 4 H)].
Defined.

(** * Further properties of the derived map visitors *)

Section DerivedVisitors.
Context {T : Type} `{DeserializeField T}.

Lemma cwt_visit_entries_skip (k v : cbor) (pre post : list (cbor * cbor)) (st : cwt_slots)
  (Hk : field_of_key CWT_FIELDS k = ret None) :
  cwt_visit_entries (pre ++ (k, v) :: post) st = cwt_visit_entries (pre ++ post) st.
Proof.
  revert st. induction pre as [|[k' v'] pre IH]; intros st.
  - cbn [app cwt_visit_entries]. rewrite Hk. reflexivity.
  - cbn [app cwt_visit_entries].
    destruct (field_of_key CWT_FIELDS k') as [[f|e]|msg]; cbn [bind]; try reflexivity.
    destruct f as [[|[|[|[|[|n]]]]]|]; try apply IH;
      lazymatch goal with
      | |- match ?o with Some _ => _ | None => _ end = _ => destruct o; [reflexivity|]
      end;
      lazymatch goal with
      | |- bind ?m _ = bind ?m _ => destruct m as [[x|e]|msg]; cbn [bind];
                                    [apply IH | reflexivity | reflexivity]
      end.
Qed.

Lemma vc_visit_entries_skip (k v : cbor) (pre post : list (cbor * cbor)) (st : vc_slots)
  (Hk : field_of_key VC_FIELDS k = ret None) :
  vc_visit_entries (pre ++ (k, v) :: post) st = vc_visit_entries (pre ++ post) st.
Proof.
  revert st. induction pre as [|[k' v'] pre IH]; intros st.
  - cbn [app vc_visit_entries]. rewrite Hk. reflexivity.
  - cbn [app vc_visit_entries].
    destruct (field_of_key VC_FIELDS k') as [[f|e]|msg]; cbn [bind]; try reflexivity.
    destruct f as [[|[|[|[|n]]]]|]; try apply IH;
      lazymatch goal with
      | |- match ?o with Some _ => _ | None => _ end = _ => destruct o; [reflexivity|]
      end;
      lazymatch goal with
      | |- bind ?m _ = bind ?m _ => destruct m as [[x|e]|msg]; cbn [bind];
                                    [apply IH | reflexivity | reflexivity]
      end.
Qed.

End DerivedVisitors.

Lemma pcp_visit_entries_skip (k v : cbor) (pre post : list (cbor * cbor)) (st : pcp_slots)
  (Hk : field_of_key PCP_FIELDS k = ret None) :
  pcp_visit_entries (pre ++ (k, v) :: post) st = pcp_visit_entries (pre ++ post) st.
Proof.
  revert st. induction pre as [|[k' v'] pre IH]; intros st.
  - cbn [app pcp_visit_entries]. rewrite Hk. reflexivity.
  - cbn [app pcp_visit_entries].
    destruct (field_of_key PCP_FIELDS k') as [[f|e]|msg]; cbn [bind]; try reflexivity.
    destruct f as [[|[|[|n]]]|]; try apply IH;
      lazymatch goal with
      | |- match ?o with Some _ => _ | None => _ end = _ => destruct o; [reflexivity|]
      end;
      lazymatch goal with
      | |- bind ?m _ = bind ?m _ => destruct m as [[x|e]|msg]; cbn [bind];
                                    [apply IH | reflexivity | reflexivity]
      end.
Qed.

(** X8: in a CWT payload map, an entry whose key names no field of
    [CwtPayload] (a text or byte-string key other than [cti], [iss],
    [nbf], [exp], [vc], or an integer key of 5 or more) is skipped without
    its value being looked at: the result is that of the map without it. *)
Theorem cwt_unknown_key_ignored {T : Type} `{DeserializeField T}
  (k v : cbor) (pre post : list (cbor * cbor))
  (Hk : field_of_key CWT_FIELDS k = ret None) :
  deserialize_cwt (T := T) (CMap (pre ++ (k, v) :: post)) = deserialize_cwt (CMap (pre ++ post)).
Proof.
  unfold deserialize_cwt, cwt_visit_map. rewrite cwt_visit_entries_skip by exact Hk.
  reflexivity.
Qed.

Lemma cwt_unknown_key_ignored_witness :
  field_of_key CWT_FIELDS (CInt 7) = ret None /\
  deserialize_cwt (T := PublicCovidPass)
    (CMap ([(CText "iss", CText "did:web:example.nz")] ++ (CInt 7, CNull) :: []))
  = deserialize_cwt (CMap ([(CText "iss", CText "did:web:example.nz")] ++ [])).
Proof.
  assert (Hk : field_of_key CWT_FIELDS (CInt 7) = ret None) by reflexivity.
  split; [exact Hk | exact (cwt_unknown_key_ignored _ _ _ _ Hk)].
Defined.

(** X9: the same holds for the [vc] map: an entry whose key names no field
    of [VerifiableCredential] is skipped without its value being looked
    at. *)
Theorem vc_unknown_key_ignored {T : Type} `{DeserializeField T}
  (k v : cbor) (pre post : list (cbor * cbor))
  (Hk : field_of_key VC_FIELDS k = ret None) :
  deserialize_vc (T := T) (CMap (pre ++ (k, v) :: post)) = deserialize_vc (CMap (pre ++ post)).
Proof.
  unfold deserialize_vc, vc_visit_map. rewrite vc_visit_entries_skip by exact Hk.
  reflexivity.
Qed.

Lemma vc_unknown_key_ignored_witness :
  field_of_key VC_FIELDS (CText "id") = ret None /\
  deserialize_vc (T := PublicCovidPass)
    (CMap ([(CText "version", CText "1.0.0")] ++ (CText "id", CInt 1) :: []))
  = deserialize_vc (CMap ([(CText "version", CText "1.0.0")] ++ [])).
Proof.
  assert (Hk : field_of_key VC_FIELDS (CText "id") = ret None) by reflexivity.
  split; [exact Hk | exact (vc_unknown_key_ignored _ _ _ _ Hk)].
Defined.

(** X10: the same holds for the [credentialSubject] map of a
    [PublicCovidPass]: an entry whose key is none of [givenName],
    [familyName], [dob] (nor an integer below 3) is skipped without its
    value being looked at. *)
Theorem pcp_unknown_key_ignored (k v : cbor) (pre post : list (cbor * cbor))
  (Hk : field_of_key PCP_FIELDS k = ret None) :
  deserialize_pcp (CMap (pre ++ (k, v) :: post)) = deserialize_pcp (CMap (pre ++ post)).
Proof.
  unfold deserialize_pcp, pcp_visit_map. rewrite pcp_visit_entries_skip by exact Hk.
  reflexivity.
Qed.

Lemma pcp_unknown_key_ignored_witness :
  field_of_key PCP_FIELDS (CText "middleName") = ret None /\
  deserialize_pcp (CMap ([(CText "givenName", CText "Jo")] ++ (CText "middleName", CInt 0)
                          :: [(CText "familyName", CText "Doe"); (CText "dob", CText "1979-04-14")]))
  = deserialize_pcp (CMap ([(CText "givenName", CText "Jo")]
                           ++ [(CText "familyName", CText "Doe"); (CText "dob", CText "1979-04-14")])).
Proof.
  assert (Hk : field_of_key PCP_FIELDS (CText "middleName") = ret None) by reflexivity.
  split; [exact Hk | exact (pcp_unknown_key_ignored _ _ _ _ Hk)].
Defined.

(** X11: a CWT payload map that repeats the [iss] key is refused with
    [DuplicateField "iss"] as soon as the second [iss] is reached, whatever
    the second value and the rest of the map, when the first [iss] value
    decodes. *)
Theorem cwt_duplicate_iss {T : Type} `{DeserializeField T}
  (v1 v2 : cbor) (d : DecentralizedIdentifier) (rest : list (cbor * cbor))
  (Hv1 : deserialize_did v1 = ret d) :
  deserialize_cwt (T := T) (CMap ((CText "iss", v1) :: (CText "iss", v2) :: rest))
  = fail (DuplicateField "iss").
Proof.
  unfold deserialize_cwt, cwt_visit_map. cbn [cwt_visit_entries].
  unfold field_of_key. cbn [index_of CWT_FIELDS String.eqb ret bind].
  rewrite Hv1. reflexivity.
Qed.

Lemma cwt_duplicate_iss_witness :
  deserialize_did (CText "did:web:a.nz") = ret (Web "a.nz") /\
  deserialize_cwt (T := PublicCovidPass)
    (CMap ((CText "iss", CText "did:web:a.nz") :: (CText "iss", CNull) :: []))
  = fail (DuplicateField "iss").
Proof.
  assert (Hv : deserialize_did (CText "did:web:a.nz") = ret (Web "a.nz")) by reflexivity.
  split; [exact Hv | exact (cwt_duplicate_iss _ _ _ _ Hv)].
Defined.

(** X12: an integer key [i] below 5 in a CWT payload map is read as the
    [i]-th field of [CwtPayload] ([cti], [iss], [nbf], [exp], [vc]), exactly
    as the text key of that field name. *)
Theorem cwt_integer_key_is_field_index {T : Type} `{DeserializeField T}
  (i : nat) (v : cbor) (rest : list (cbor * cbor)) (st : cwt_slots (T := T))
  (Hi : (i < 5)%nat) :
  cwt_visit_entries ((CInt (Z.of_nat i), v) :: rest) st
  = cwt_visit_entries ((CText (nth i CWT_FIELDS ""), v) :: rest) st.
Proof.
  do 5 (destruct i as [|i]; [reflexivity|]). lia.
Qed.

Lemma cwt_integer_key_is_field_index_witness :
  (1 < 5)%nat /\
  cwt_visit_entries (T := PublicCovidPass) ((CInt (Z.of_nat 1), CText "did:web:a.nz") :: [])
    (mk_cwt_slots None None None None None)
  = cwt_visit_entries ((CText (nth 1 CWT_FIELDS ""), CText "did:web:a.nz") :: [])
      (mk_cwt_slots None None None None None).
Proof.
  split; [lia | apply cwt_integer_key_is_field_index; lia].
Defined.

(** X13: a CWT payload map that opens with the integer key 4 (the key
    RFC 8392 registers for [exp]) and an integer value is refused with
    [InvalidType], whatever follows: the derived field visitor reads key 4
    as the index of [vc], whose deserializer refuses an integer. *)
Theorem cwt_registered_exp_key_refused {T : Type} `{DeserializeField T}
  (z : Z) (rest : list (cbor * cbor)) :
  deserialize_cwt (T := T) (CMap ((CInt 4, CInt z) :: rest)) = fail InvalidType.
Proof. reflexivity. Qed.

(** X14: the [type] entry of a verifiable credential, read as a pair of
    strings from an array of texts, succeeds exactly on arrays of two
    texts; a shorter array is an [InvalidLength] error and a longer one a
    [TrailingData] error. *)
Theorem str_pair_of_texts (l : list string) :
  deserialize_str_pair (CArray (map CText l))
  = match l with
    | [a; b] => ret (a, b)
    | [] | [_] => fail InvalidLength
    | _ => fail TrailingData
    end.
Proof. destruct l as [|a [|b [|c l]]]; reflexivity. Qed.

(** X15: an integer outside the [i64] range as [nbf] or [exp] is an
    error, not a panic: an [InvalidValue] error above [i64::MAX] (CBOR
    unsigned integers reach [2^64 - 1]) and an [InvalidType] error below
    [i64::MIN] (CBOR negative integers reach [-2^64]). *)
Theorem numeric_date_outside_i64 (z : Z)
  (Hz : z < I64_MIN \/ I64_MAX < z) :
  deserialize_numeric_date (CInt z)
  = fail (if z <? I64_MIN then InvalidType else InvalidValue).
Proof.
  unfold deserialize_numeric_date, deserialize_i64, in_i64.
  destruct Hz as [Hz|Hz].
  - rewrite (proj2 (Z.leb_gt _ _) Hz), (proj2 (Z.ltb_lt _ _) Hz). reflexivity.
  - assert (Hmin : I64_MIN <= z) by (unfold I64_MIN, I64_MAX in *; lia).
    rewrite (proj2 (Z.leb_gt _ _) Hz), andb_false_r, (proj2 (Z.ltb_ge _ _) Hmin).
    reflexivity.
Qed.

Lemma numeric_date_outside_i64_witness :
  (-2 ^ 63 - 1 < I64_MIN \/ I64_MAX < -2 ^ 63 - 1) /\
  deserialize_numeric_date (CInt (-2 ^ 63 - 1)) = fail InvalidType.
Proof.
  assert (Hz : -2 ^ 63 - 1 < I64_MIN \/ I64_MAX < -2 ^ 63 - 1)
    by (left; unfold I64_MIN; lia).
  split; [exact Hz | exact (numeric_date_outside_i64 _ Hz)].
Defined.

(** * Further properties of the CBOR boundary *)

Lemma read_head_app (bs extra rest : list Z) (major arg : Z) :
  cbor_read.read_head bs = Some (major, arg, rest) ->
  cbor_read.read_head (bs ++ extra) = Some (major, arg, rest ++ extra).
Proof.
  destruct bs as [|ib rest0]; [discriminate|]. cbn [app cbor_read.read_head].
  destruct (Z.land ib 31 <? 24); [intros H; injection H as <- <- <-; reflexivity|].
  set (n := match Z.land ib 31 with 24 => 1%nat | 25 => 2%nat | 26 => 4%nat
                                   | 27 => 8%nat | _ => 0%nat end).
  destruct (n =? 0)%nat; [discriminate|].
  destruct (Nat.ltb_spec (List.length rest0) n) as [Hl|Hl]; [discriminate|].
  rewrite length_app.
  destruct (Nat.ltb_spec (List.length rest0 + List.length extra) n) as [Hl2|Hl2]; [lia|].
  intros H; injection H as <- <- <-.
  rewrite firstn_app, skipn_app.
  replace (n - List.length rest0)%nat with O by lia.
  rewrite firstn_O, app_nil_r. reflexivity.
Qed.

Lemma take_app (n : Z) (bs extra b r : list Z) :
  cbor_read.take n bs = Some (b, r) -> cbor_read.take n (bs ++ extra) = Some (b, r ++ extra).
Proof.
  unfold cbor_read.take. rewrite length_app.
  destruct (Z.ltb_spec (Z.of_nat (List.length bs)) n) as [Hl|Hl]; [discriminate|].
  destruct (Z.ltb_spec (Z.of_nat (List.length bs + List.length extra)) n) as [Hl2|Hl2]; [lia|].
  intros H; injection H as <- <-.
  rewrite firstn_app, skipn_app.
  replace (Z.to_nat n - List.length bs)%nat with O by lia.
  rewrite firstn_O, app_nil_r. reflexivity.
Qed.

Lemma item_app (f : nat) :
  (forall bs v r extra f', (f <= f')%nat -> cbor_read.item f bs = Some (v, r) ->
     cbor_read.item f' (bs ++ extra) = Some (v, r ++ extra)) /\
  (forall n bs l r extra f', (f <= f')%nat -> cbor_read.items f n bs = Some (l, r) ->
     cbor_read.items f' n (bs ++ extra) = Some (l, r ++ extra)) /\
  (forall n bs l r extra f', (f <= f')%nat -> cbor_read.entries f n bs = Some (l, r) ->
     cbor_read.entries f' n (bs ++ extra) = Some (l, r ++ extra)).
Proof.
  induction f as [|f IH].
  - split; [|split].
    + discriminate.
    + intros [|n] bs l r extra f' _ H; [|discriminate].
      cbn in H. injection H as <- <-. destruct f'; reflexivity.
    + intros [|n] bs l r extra f' _ H; [|discriminate].
      cbn in H. injection H as <- <-. destruct f'; reflexivity.
  - destruct IH as [IHi [IHs IHe]]. split; [|split].
    + intros bs v r extra [|f'] Hf H; [lia|].
      cbn [cbor_read.item] in H |- *.
      destruct (cbor_read.read_head bs) as [[[major arg] rest]|] eqn:Eh; [|discriminate].
      rewrite (read_head_app _ extra _ _ _ Eh).
      repeat match goal with
             | H : match ?x with _ => _ end = Some _ |- _ =>
                 is_var x; destruct x; cbn [app] in H |- *; cbv beta iota in H |- *
             end;
      lazymatch goal with
      | H : None = Some _ |- _ => discriminate
      | H : Some _ = Some _ |- _ => injection H as <- <-; reflexivity
      | H : cbor_read.item f rest = Some _ |- _ => apply (IHi _ _ _ extra f' ltac:(lia) H)
      | H : match cbor_read.take ?a ?rs with _ => _ end = Some _ |- _ =>
          destruct (cbor_read.take a rs) as [[b r1]|] eqn:E; [|discriminate];
          rewrite (take_app _ _ extra _ _ E);
          try (destruct (utf8_valid b); cbv beta iota in H |- *; [|discriminate]);
          injection H as <- <-; reflexivity
      | H : match cbor_read.items f ?n ?rs with _ => _ end = Some _ |- _ =>
          destruct (cbor_read.items f n rs) as [[l r1]|] eqn:E; [|discriminate];
          rewrite (IHs _ _ _ _ extra f' ltac:(lia) E); injection H as <- <-; reflexivity
      | H : match cbor_read.entries f ?n ?rs with _ => _ end = Some _ |- _ =>
          destruct (cbor_read.entries f n rs) as [[l r1]|] eqn:E; [|discriminate];
          rewrite (IHe _ _ _ _ extra f' ltac:(lia) E); injection H as <- <-; reflexivity
      end.
    + intros [|n] bs l r extra [|f'] Hf H; try lia.
      * cbn in H. injection H as <- <-. reflexivity.
      * cbn [cbor_read.items] in H |- *.
        destruct (cbor_read.item f bs) as [[x r1]|] eqn:E1; [|discriminate].
        rewrite (IHi _ _ _ extra f' ltac:(lia) E1).
        destruct (cbor_read.items f n r1) as [[xs r2]|] eqn:E2; [|discriminate].
        rewrite (IHs _ _ _ _ extra f' ltac:(lia) E2).
        injection H as <- <-. reflexivity.
    + intros [|n] bs l r extra [|f'] Hf H; try lia.
      * cbn in H. injection H as <- <-. reflexivity.
      * cbn [cbor_read.entries] in H |- *.
        destruct (cbor_read.item f bs) as [[k r1]|] eqn:E1; [|discriminate].
        rewrite (IHi _ _ _ extra f' ltac:(lia) E1).
        destruct (cbor_read.item f r1) as [[v r2]|] eqn:E2; [|discriminate].
        rewrite (IHi _ _ _ extra f' ltac:(lia) E2).
        destruct (cbor_read.entries f n r2) as [[es r3]|] eqn:E3; [|discriminate].
        rewrite (IHe _ _ _ _ extra f' ltac:(lia) E3).
        injection H as <- <-. reflexivity.
Qed.

Lemma first_item_app (bs extra r : list Z) (v : cbor) :
  cbor_read.first_item bs = Some (v, r) ->
  cbor_read.first_item (bs ++ extra) = Some (v, r ++ extra).
Proof.
  unfold cbor_read.first_item. intros H.
  assert (Hf : (S (2 * List.length bs) <= S (2 * List.length (bs ++ extra)))%nat)
    by (rewrite length_app; lia).
  exact (proj1 (item_app _) _ _ _ extra _ Hf H).
Qed.

(** X16: [from_barcode] reads only the first CBOR item of the barcode
    bytes: bytes appended after a complete item change nothing, whether
    the result is a payload or a panic. *)
Theorem from_barcode_ignores_trailing_bytes {T : Type} `{DeserializeField T}
  (bs extra r : list Z) (v : cbor)
  (Hitem : cbor_read.first_item bs = Some (v, r)) :
  from_barcode (T := T) (mkQrBarcode (bs ++ extra)) = from_barcode (mkQrBarcode bs).
Proof.
  unfold from_barcode, deserialize_cwt_slice. cbn [qr_bytes].
  rewrite (first_item_app _ extra _ _ Hitem), Hitem. reflexivity.
Qed.

Lemma from_barcode_ignores_trailing_bytes_witness :
  let bs := fixtures.encode (fixtures.record true 1516239022 fixtures.CONTEXT "PublicCovidPass") in
  cbor_read.first_item bs
    = Some (fixtures.record true 1516239022 fixtures.CONTEXT "PublicCovidPass", []) /\
  from_barcode (T := PublicCovidPass) (mkQrBarcode (bs ++ [255; 0]))
    = from_barcode (mkQrBarcode bs).
Proof.
  intros bs.
  assert (Hv : cbor_read.first_item bs
               = Some (fixtures.record true 1516239022 fixtures.CONTEXT "PublicCovidPass", []))
    by (vm_compute; reflexivity).
  split; [exact Hv | exact (from_barcode_ignores_trailing_bytes _ _ _ _ Hv)].
Defined.

(** * Further properties of the derived deserializers *)

(** X17: a [PublicCovidPass] given as a CBOR array of its three fields
    decodes to the same result, value or error, as the map that lists the
    same items under [givenName], [familyName], [dob] in that order. *)
Theorem pcp_seq_matches_map (g f d : cbor) :
  deserialize_pcp (CArray [g; f; d])
  = deserialize_pcp (CMap [(CText "givenName", g); (CText "familyName", f); (CText "dob", d)]).
Proof.
  unfold deserialize_pcp, pcp_visit_seq, pcp_visit_map.
  cbn [pcp_visit_entries field_of_key index_of PCP_FIELDS String.eqb Ascii.eqb Bool.eqb andb ret bind
       f_given_name f_family_name f_dob].
  destruct (deserialize_str g) as [[x|e]|m]; cbn [bind]; try reflexivity.
  destruct (deserialize_str f) as [[y|e]|m]; cbn [bind]; try reflexivity.
  destruct (deserialize_iso_8601_date d) as [[z|e]|m]; cbn [bind]; try reflexivity.
Qed.

(** X18: a [VerifiableCredential] given as a CBOR array of its four fields
    decodes to the same result, value or error, as the map that lists the
    same items under [@context], [type], [version], [credentialSubject] in
    that order. *)
Theorem vc_seq_matches_map {T : Type} `{DeserializeField T} (a b c d : cbor) :
  deserialize_vc (T := T) (CArray [a; b; c; d])
  = deserialize_vc (CMap [(CText "@context", a); (CText "type", b);
                          (CText "version", c); (CText "credentialSubject", d)]).
Proof.
  unfold deserialize_vc, vc_visit_seq, vc_visit_map.
  cbn [vc_visit_entries field_of_key index_of VC_FIELDS String.eqb Ascii.eqb Bool.eqb andb ret bind
       f_context f_type f_version f_subject].
  destruct (deserialize_vec_str a) as [[x|e]|m]; cbn [bind]; try reflexivity.
  destruct (deserialize_str_pair b) as [[y|e]|m]; cbn [bind]; try reflexivity.
  destruct (deserialize_str c) as [[z|e]|m]; cbn [bind]; try reflexivity.
  destruct (deserialize_field d) as [[w|e]|m]; cbn [bind]; try reflexivity.
Qed.

(** X19: a CWT payload given as a CBOR array of its five fields decodes
    to the same result, value, error or panic, as the map that lists the
    same items under [cti], [iss], [nbf], [exp], [vc] in that order. *)
Theorem cwt_seq_matches_map {T : Type} `{DeserializeField T} (a b c d e : cbor) :
  deserialize_cwt (T := T) (CArray [a; b; c; d; e])
  = deserialize_cwt (CMap [(CText "cti", a); (CText "iss", b); (CText "nbf", c);
                           (CText "exp", d); (CText "vc", e)]).
Proof.
  unfold deserialize_cwt, cwt_visit_seq, cwt_visit_map.
  cbn [cwt_visit_entries field_of_key index_of CWT_FIELDS String.eqb Ascii.eqb Bool.eqb andb ret bind
       f_cti f_iss f_nbf f_exp f_vc required].
  destruct (deserialize_uuid a) as [[x1|err]|m]; cbn [bind]; try reflexivity.
  destruct (deserialize_did b) as [[x2|err]|m]; cbn [bind]; try reflexivity.
  destruct (deserialize_numeric_date c) as [[x3|err]|m]; cbn [bind]; try reflexivity.
  destruct (deserialize_numeric_date d) as [[x4|err]|m]; cbn [bind]; try reflexivity.
  destruct (deserialize_vc e) as [[x5|err]|m]; cbn [bind]; try reflexivity.
Qed.

(** X20: a CWT payload map with a 16-byte [cti], an [iss] text starting
    with ["did:web:"], [nbf] and [exp] integers in the range of X6 and a
    [vc] that decodes, decodes to the payload of these values: the UUID of
    the bytes, [Web] of the text after the prefix, date-times whose times
    of day are [nbf mod 86400] and [exp mod 86400], and the credential. *)
Theorem cwt_map_decodes {T : Type} `{DeserializeField T}
  (cti : list Z) (id : string) (nbf exp : Z) (vcv : cbor) (vc : VerifiableCredential T)
  (Hcti : List.length cti = 16%nat)
  (Hnbf : -8330088643200 <= nbf <= 8205754204799)
  (Hexp : -8330088643200 <= exp <= 8205754204799)
  (Hvc : deserialize_vc vcv = ret vc) :
  exists n e,
    deserialize_cwt (CMap [(CText "cti", CBytes cti); (CText "iss", CText ("did:web:" ++ id));
                           (CText "nbf", CInt nbf); (CText "exp", CInt exp); (CText "vc", vcv)])
    = ret (mkCwtPayload (mkUuid cti) (Web id) n e vc) /\
    chrono.secs_of_day n = nbf mod 86400 /\ chrono.secs_of_day e = exp mod 86400.
Proof.
  destruct (numeric_date_in_range nbf ltac:(lia) ltac:(lia)) as [dn Hn].
  destruct (numeric_date_in_range exp ltac:(lia) ltac:(lia)) as [de He].
  unfold deserialize_cwt, cwt_visit_map.
  cbn [cwt_visit_entries field_of_key index_of CWT_FIELDS String.eqb Ascii.eqb Bool.eqb andb
       f_cti f_iss f_nbf f_exp f_vc].
  unfold deserialize_uuid. rewrite Hcti. cbn [Nat.eqb ret bind].
  unfold deserialize_did, visit_borrowed_str. rewrite strip_prefix_app. cbn [bind].
  rewrite Hn. cbn [bind ret]. rewrite He. cbn [bind ret]. rewrite Hvc. cbn [bind ret required].
  eexists _, _. split; [reflexivity | split; reflexivity].
Qed.

Lemma cwt_map_decodes_witness :
  List.length fixtures.CTI = 16%nat /\
  (-8330088643200 <= 1516239022 <= 8205754204799) /\
  (-8330088643200 <= 1516239922 <= 8205754204799) /\
  deserialize_vc (T := PublicCovidPass)
    (vc_map (CArray []) "VerifiableCredential" "PublicCovidPass" "1.0.0"
            (fixtures.subject "1979-04-14"))
  = ret (mkVerifiableCredential [] ("VerifiableCredential", "PublicCovidPass") "1.0.0"
           (mkPublicCovidPass "John Andrew" "Doe" (chrono.mkNaiveDate 1979 104))) /\
  exists n e,
    deserialize_cwt (CMap [(CText "cti", CBytes fixtures.CTI);
                           (CText "iss", CText ("did:web:" ++ "nzcp.identity.health.nz"));
                           (CText "nbf", CInt 1516239022); (CText "exp", CInt 1516239922);
                           (CText "vc", vc_map (CArray []) "VerifiableCredential" "PublicCovidPass"
                                               "1.0.0" (fixtures.subject "1979-04-14"))])
    = ret (mkCwtPayload (mkUuid fixtures.CTI) (Web "nzcp.identity.health.nz") n e
             (mkVerifiableCredential [] ("VerifiableCredential", "PublicCovidPass") "1.0.0"
                (mkPublicCovidPass "John Andrew" "Doe" (chrono.mkNaiveDate 1979 104)))) /\
    chrono.secs_of_day n = 1516239022 mod 86400 /\ chrono.secs_of_day e = 1516239922 mod 86400.
Proof.
  assert (Hc : List.length fixtures.CTI = 16%nat) by reflexivity.
  assert (Hv : deserialize_vc (T := PublicCovidPass)
                 (vc_map (CArray []) "VerifiableCredential" "PublicCovidPass" "1.0.0"
                         (fixtures.subject "1979-04-14"))
               = ret (mkVerifiableCredential [] ("VerifiableCredential", "PublicCovidPass") "1.0.0"
                        (mkPublicCovidPass "John Andrew" "Doe" (chrono.mkNaiveDate 1979 104))))
    by (vm_compute; reflexivity).
  split; [exact Hc|]. split; [lia|]. split; [lia|]. split; [exact Hv|].
  apply (cwt_map_decodes fixtures.CTI "nzcp.identity.health.nz" 1516239022 1516239922 _ _
           Hc ltac:(lia) ltac:(lia) Hv).
Defined.
